(** * Taskify: the task service (Express + Mongoose) and its React client

    A shallow embedding of
      - [backend/src/models/taskModel.js]   (the Mongoose schema),
      - [backend/src/routes/taskRoutes.js]  (the five route handlers),
      - [frondend/taskify/src/App.jsx]      (the client cache and its handlers),
    followed by the properties of the specification checked against it.

    Conventions.  A request body is the JSON object sent by the client, read
    as a finite map from keys to JSON scalars.  A stored document is a record
    with the six paths of the schema.  Dates are milliseconds since the epoch.
    Strings are the UTF-8 bytes of well-formed JavaScript strings; letter case
    is the ASCII one, white space is that of the language.
    An [async] handler of the client is its synchronous prefix together with
    the continuation that runs when the awaited response arrives. *)

From stdpp Require Import base decidable option list sorting strings pretty gmap.
From Stdlib Require Import Ascii String ZArith Lia.

Local Open Scope Z_scope.
Local Open Scope string_scope.

(** ** Strings as JavaScript sees them *)

Module Str.

Definition chars (s : string) : list ascii := String.list_ascii_of_string s.
Definition of_chars (l : list ascii) : string := String.string_of_list_ascii l.

Definition to_lower (c : ascii) : ascii :=
  let n := Ascii.nat_of_ascii c in
  if ((65 <=? n) && (n <=? 90))%nat then Ascii.ascii_of_nat (n + 32) else c.

Definition char_eqb (c d : ascii) : bool := bool_decide (c = d).

Definition char_eqb_ci (c d : ascii) : bool :=
  char_eqb (to_lower c) (to_lower d).

(** Equality of two strings up to letter case. *)
Fixpoint eqb_ci (s t : list ascii) : bool :=
  match s, t with
  | [], [] => true
  | c :: s', d :: t' => char_eqb_ci c d && eqb_ci s' t'
  | _, _ => false
  end.

Definition equal_ci (s t : string) : bool := eqb_ci (chars s) (chars t).

(** White space and line terminators removed by [String.prototype.trim].
    One byte: TAB, LF, VT, FF, CR, SP. *)
Definition is_white (c : ascii) : bool :=
  let n := Ascii.nat_of_ascii c in
  (((9 <=? n) && (n <=? 13)) || (n =? 32))%nat.

(** Two bytes: U+00A0. *)
Definition is_white2 (a b : ascii) : bool :=
  ((Ascii.nat_of_ascii a =? 194) && (Ascii.nat_of_ascii b =? 160))%nat.

(** Three bytes: U+1680, U+2000 to U+200A, U+2028, U+2029, U+202F, U+205F,
    U+3000, U+FEFF. *)
Definition is_white3 (a b c : ascii) : bool :=
  let x := Ascii.nat_of_ascii a in
  let y := Ascii.nat_of_ascii b in
  let z := Ascii.nat_of_ascii c in
  (((x =? 225) && (y =? 154) && (z =? 128))
   || ((x =? 226) && (y =? 128)
       && (((128 <=? z) && (z <=? 138)) || (z =? 168) || (z =? 169) || (z =? 175)))
   || ((x =? 226) && (y =? 129) && (z =? 159))
   || ((x =? 227) && (y =? 128) && (z =? 128))
   || ((x =? 239) && (y =? 187) && (z =? 191)))%nat.

(** Removal of the white space the list begins with; [w2] and [w3] recognise
    the characters of two and three bytes in the order the list has them. *)
Fixpoint strip (w2 : ascii -> ascii -> bool) (w3 : ascii -> ascii -> ascii -> bool)
    (l : list ascii) : list ascii :=
  match l with
  | [] => []
  | a :: l1 =>
      if is_white a then strip w2 w3 l1
      else
        match l1 with
        | [] => l
        | b :: l2 =>
            if w2 a b then strip w2 w3 l2
            else
              match l2 with
              | [] => l
              | c :: l3 => if w3 a b c then strip w2 w3 l3 else l
              end
        end
  end.

(** Whether the list begins with a white space character. *)
Definition white_head (w2 : ascii -> ascii -> bool)
    (w3 : ascii -> ascii -> ascii -> bool) (l : list ascii) : bool :=
  match l with
  | [] => false
  | a :: l1 =>
      is_white a
      || match l1 with
         | [] => false
         | b :: l2 =>
             w2 a b || match l2 with [] => false | c :: _ => w3 a b c end
         end
  end.

Definition trim_start (l : list ascii) : list ascii :=
  strip is_white2 is_white3 l.

(** The same on the reversed list, for the end of the string. *)
Definition trim_start_rev (l : list ascii) : list ascii :=
  strip (fun b a => is_white2 a b) (fun c b a => is_white3 a b c) l.

Definition trim (s : string) : string :=
  of_chars (rev (trim_start_rev (rev (trim_start (chars s))))).

Definition is_empty (s : string) : bool := bool_decide (s = EmptyString).

End Str.

(** ** The regular expressions built by [getAllTasks]

    [new RegExp(`^${status}$`, 'i')] interprets [status] as pattern source.
    The fragment modelled here: a pattern anchored by [^] and [$] whose body is
    a sequence of atoms (a literal character or [.]), each optionally followed
    by [*].  Any other use of a metacharacter is outside the fragment and
    [compile] answers [None] for it.  The query is evaluated by the store,
    where [.] matches every character but LF and the final [$] matches at the
    end of the subject or before a trailing LF. *)

Module RegExp.

Inductive atom := AnyChar | Lit (c : ascii).
Inductive item := One (a : atom) | Many (a : atom).

Record t := mk { items : list item; ignoreCase : bool }.

Definition metachars : list ascii :=
  Str.chars "\^$.*+?()[]{}|".

Definition is_meta (c : ascii) : bool := bool_decide (c ∈ metachars).

Definition LF : ascii := Ascii.ascii_of_nat 10.

Definition parse_atom (c : ascii) : option atom :=
  if Str.char_eqb c "."%char then Some AnyChar
  else if is_meta c then None
  else Some (Lit c).

(** The body of the pattern up to and including the closing [$]. *)
Fixpoint parse_body (l : list ascii) : option (list item) :=
  match l with
  | [] => None
  | c :: l' =>
      if Str.char_eqb c "$"%char then
        match l' with [] => Some [] | _ => None end
      else
        match parse_atom c with
        | None => None
        | Some a =>
            match l' with
            | star :: l'' =>
                if Str.char_eqb star "*"%char
                then (fun r => Many a :: r) <$> parse_body l''
                else (fun r => One a :: r) <$> parse_body l'
            | [] => None
            end
        end
  end.

Definition compile (source flags : string) : option t :=
  match Str.chars source with
  | c :: l =>
      if Str.char_eqb c "^"%char
      then (fun its => mk its (bool_decide (flags = "i"))) <$> parse_body l
      else None
  | [] => None
  end.

Definition match_atom (ci : bool) (a : atom) (c : ascii) : bool :=
  match a with
  | AnyChar => negb (Str.char_eqb c LF)
  | Lit l => if ci then Str.char_eqb_ci l c else Str.char_eqb l c
  end.

(** [a*] followed by the continuation [k], longest repetition first. *)
Fixpoint match_many (ci : bool) (a : atom) (k : list ascii -> bool)
    (s : list ascii) : bool :=
  match s with
  | c :: s' => (match_atom ci a c && match_many ci a k s') || k s
  | [] => k []
  end.

Definition at_end (s : list ascii) : bool :=
  match s with
  | [] => true
  | [c] => Str.char_eqb c LF
  | _ => false
  end.

Fixpoint match_items (ci : bool) (p : list item) (s : list ascii) : bool :=
  match p with
  | [] => at_end s
  | One a :: p' =>
      match s with
      | c :: s' => match_atom ci a c && match_items ci p' s'
      | [] => false
      end
  | Many a :: p' => match_many ci a (match_items ci p') s
  end.

Definition test (r : t) (s : string) : bool :=
  match_items (ignoreCase r) (items r) (Str.chars s).

End RegExp.

(** ** JSON bodies, documents, exceptions *)

(** The scalars of a JSON body: null, booleans, integer numbers, strings.
    Numbers with a fraction, arrays and nested objects (and with them the
    update operators, whose arguments are objects) are not modelled. *)
Inductive JVal := JNull | JBool (b : bool) | JNum (n : Z) | JStr (s : string).

Abbreviation ObjectId := string (only parsing).

(** A stored task: the five paths of [TaskSchema] and the [_id] the store adds. *)
Record Task := mkTask {
  _id : ObjectId;
  title : string;
  description : string;
  status : string;
  dueDate : option Z;
  createdAt : option Z;
}.

Global Instance JVal_eq_dec : EqDecision JVal.
Proof. solve_decision. Defined.
Global Instance Task_eq_dec : EqDecision Task.
Proof. solve_decision. Defined.

Inductive ValidatorKind :=
  | Required (message : option string)  (* [None]: the library's own message *)
  | Enum
  | Cast.

Inductive Exn :=
  | ValidationError (errors : list (string * ValidatorKind))
  | CastError (path : string)
  | MongooseError (message : string)
  | MongoServerError (code : N)
  | DriverError (message : string)
  | Error (message : string).

Inductive result (A : Type) :=
  | Ok (a : A)
  | Throw (e : Exn).
Arguments Ok {A} a.
Arguments Throw {A} e.

Definition bind {A B} (r : result A) (k : A -> result B) : result B :=
  match r with
  | Ok a => k a
  | Throw e => Throw e
  end.

Notation "'let!' x ':=' r 'in' k" := (bind r (fun x => k))
  (at level 10, x pattern, r at level 100, k at level 200).

(** What the handlers cannot see in the source: the clock, the generator of
    object ids of the library and the one of the driver, the two parsers of
    the libraries, the string form of a number, and whether the driver call
    of the operation fails (store unreachable, connection lost). *)
Record Env := mkEnv {
  now : Z;
  newObjectId : ObjectId;
  driverObjectId : ObjectId;
  castObjectId : string -> option ObjectId;
  parseDate : string -> option Z;
  showNumber : Z -> string;
  fault : option string;
}.

(** ** taskModel.js *)

Module Schema.

Record StringType := {
  required : option (option string);
  trim : bool;
  default : option string;
  enum : option (list string);
}.

Inductive DateDefault := DefaultNull | DefaultNow.

Definition title : StringType :=
  {| required := Some (Some "Title is required."); trim := true;
     default := None; enum := None |}.

Definition description : StringType :=
  {| required := Some (Some "Description is required."); trim := false;
     default := None; enum := None |}.

Definition status : StringType :=
  {| required := Some None; trim := false; default := Some "Pending";
     enum := Some ["Pending"; "In Progress"; "Completed"] |}.

Definition dueDate : DateDefault := DefaultNull.
Definition createdAt : DateDefault := DefaultNow.

(** Casting a JSON scalar to the String type, then the [trim] setter.
    [None] is [null]. *)
Definition castString (env : Env) (ty : StringType) (v : JVal) : option string :=
  let raw :=
    match v with
    | JNull => None
    | JBool b => Some (if b then "true" else "false")
    | JNum n => Some (showNumber env n)
    | JStr s => Some s
    end in
  if trim ty then Str.trim <$> raw else raw.

(** The validators of a String path, in their order: [required], [enum].
    The first that fails is reported. *)
Definition validateString (ty : StringType) (path : string)
    (v : option string) : list (string * ValidatorKind) :=
  let missing :=
    match v with
    | None => true
    | Some s => Str.is_empty s
    end in
  match required ty with
  | Some message =>
      if missing then [(path, Required message)]
      else
        match enum ty, v with
        | Some values, Some s =>
            if bool_decide (s ∈ values) then [] else [(path, Enum)]
        | _, _ => []
        end
  | None =>
      match enum ty, v with
      | Some values, Some s =>
          if bool_decide (s ∈ values) then [] else [(path, Enum)]
      | _, _ => []
      end
  end.

Definition maxTime : Z := 8640000000000000.

(** Casting to Date: outer [None] is a failed cast, inner [None] is [null]. *)
Definition castDate (env : Env) (v : JVal) : option (option Z) :=
  match v with
  | JNull => Some None
  | JBool _ => None
  | JNum n =>
      if ((- maxTime <=? n) && (n <=? maxTime))%Z then Some (Some n) else None
  | JStr s =>
      if Str.is_empty s then Some None
      else match parseDate env s with
           | Some d => Some (Some d)
           | None => None
           end
  end.

(** Casting to ObjectId goes through the string form of the value. *)
Definition castId (env : Env) (v : JVal) : option (option ObjectId) :=
  match v with
  | JNull => Some None
  | JBool b => Some <$> castObjectId env (if b then "true" else "false")
  | JNum n => Some <$> castObjectId env (showNumber env n)
  | JStr s => Some <$> castObjectId env s
  end.

Definition defaultDate (env : Env) (d : DateDefault) : option Z :=
  match d with
  | DefaultNull => None
  | DefaultNow => Some (now env)
  end.

End Schema.

(** ** The model [Task = mongoose.model('Task', TaskSchema)]

    The collection is the list of its documents in insertion order.  The
    operations are the ones the routes call, with the behaviour the library
    documents for this schema and these options. *)

Module Model.

Abbreviation Store := (list Task) (only parsing).

(** A document under construction: a path is [None] while undefined or null. *)
Record Draft := mkDraft {
  d_id : option ObjectId;
  d_title : option string;
  d_description : option string;
  d_status : option string;
  d_dueDate : option Z;
  d_createdAt : option Z;
  d_castErrors : list (string * ValidatorKind);
}.

Definition castOr {A} (path : string) (cast : JVal -> option A) (dflt : A)
    (field : option JVal) : A * list (string * ValidatorKind) :=
  match field with
  | None => (dflt, [])
  | Some v =>
      match cast v with
      | Some a => (a, [])
      | None => (dflt, [(path, Cast)])
      end
  end.

(** [new Task(req.body)]: every path of the schema is read from the body,
    cast, and given its default when the body leaves it undefined.  Keys
    that are not paths of the schema are dropped (strict mode). *)
Definition new (env : Env) (body : gmap string JVal) : Draft :=
  let '(id, e0) := castOr "_id" (Schema.castId env) (Some (newObjectId env))
                     (body !! "_id") in
  let ttl := Schema.castString env Schema.title <$> body !! "title" in
  let dsc := Schema.castString env Schema.description <$> body !! "description" in
  let sts := Schema.castString env Schema.status <$> body !! "status" in
  let '(due, e1) := castOr "dueDate" (Schema.castDate env)
                      (Schema.defaultDate env Schema.dueDate)
                      (body !! "dueDate") in
  let '(created, e2) := castOr "createdAt" (Schema.castDate env)
                          (Schema.defaultDate env Schema.createdAt)
                          (body !! "createdAt") in
  {| d_id := id;
     d_title := default (Schema.default Schema.title) ttl;
     d_description := default (Schema.default Schema.description) dsc;
     d_status := default (Schema.default Schema.status) sts;
     d_dueDate := due;
     d_createdAt := created;
     d_castErrors := e0 ++ e1 ++ e2 |}.

Definition validate (d : Draft) : list (string * ValidatorKind) :=
  Schema.validateString Schema.title "title" (d_title d)
  ++ Schema.validateString Schema.description "description" (d_description d)
  ++ Schema.validateString Schema.status "status" (d_status d)
  ++ d_castErrors d.

Definition ids (store : Store) : list ObjectId := _id <$> store.

(** What [doc.save()] resolves to: the record as stored, and whether the
    document returned shows its [_id].  It shows [null] when the body set
    [_id] to null; the driver then chose the id of the stored record. *)
Inductive Saved :=
  | SavedDoc (doc : Task)
  | SavedNullId (doc : Task).

(** [doc.save()] of a new document: validation, then the insertion, which
    the unique index on [_id] rejects for an id already in the collection. *)
Definition save (env : Env) (store : Store) (d : Draft)
    : result (Saved * Store) :=
  match validate d with
  | (_ :: _) as errors => Throw (ValidationError errors)
  | [] =>
      match fault env with
      | Some m => Throw (DriverError m)
      | None =>
          let id := default (driverObjectId env) (d_id d) in
          if bool_decide (id ∈ ids store) then Throw (MongoServerError 11000%N)
          else
            let doc :=
              {| _id := id;
                 title := default EmptyString (d_title d);
                 description := default EmptyString (d_description d);
                 status := default EmptyString (d_status d);
                 dueDate := d_dueDate d;
                 createdAt := d_createdAt d |} in
            Ok (match d_id d with
                | Some _ => SavedDoc doc
                | None => SavedNullId doc
                end, (store ++ [doc])%list)
      end
  end.

Definition lookup (id : ObjectId) (store : Store) : option Task :=
  list_find (fun doc => _id doc = id) store ≫= fun '(_, doc) => Some doc.

Fixpoint remove (id : ObjectId) (store : Store) : Store :=
  match store with
  | [] => []
  | doc :: rest =>
      if bool_decide (_id doc = id) then rest else doc :: remove id rest
  end.

Fixpoint replace (doc' : Task) (id : ObjectId) (store : Store) : Store :=
  match store with
  | [] => []
  | doc :: rest =>
      if bool_decide (_id doc = id) then doc' :: rest
      else doc :: replace doc' id rest
  end.

(** The order of [sort({ createdAt: -1 })]: [null] sorts below every date. *)
Definition date_le (a b : option Z) : bool :=
  match a, b with
  | None, _ => true
  | Some _, None => false
  | Some x, Some y => (x <=? y)%Z
  end.

(** Insertion before the first document that is not newer; documents with
    equal dates stay in collection order. *)
Fixpoint insert_desc (doc : Task) (sorted : list Task) : list Task :=
  match sorted with
  | [] => [doc]
  | x :: rest =>
      if date_le (createdAt x) (createdAt doc) then doc :: x :: rest
      else x :: insert_desc doc rest
  end.

Definition sort_desc (docs : list Task) : list Task :=
  foldr insert_desc [] docs.

(** [Task.find(filter).sort({ createdAt: -1 })], the filter being empty or
    [{ status: { $regex: re } }]. *)
Definition find (env : Env) (store : Store) (filter : option RegExp.t)
    : result (list Task) :=
  match fault env with
  | Some m => Throw (DriverError m)
  | None =>
      let matching :=
        match filter with
        | None => store
        | Some re => List.filter (fun doc => RegExp.test re (status doc)) store
        end in
      Ok (sort_desc matching)
  end.

(** [Task.findById(id)] *)
Definition findById (env : Env) (store : Store) (id : string)
    : result (option Task) :=
  match castObjectId env id with
  | None => Throw (CastError "_id")
  | Some oid =>
      match fault env with
      | Some m => Throw (DriverError m)
      | None => Ok (lookup oid store)
      end
  end.

(** The update document cast from a body: for each path, whether the body
    sets it, and to which cast value. *)
Record Update := mkUpdate {
  u_id : option (option ObjectId);
  u_title : option (option string);
  u_description : option (option string);
  u_status : option (option string);
  u_dueDate : option (option Z);
  u_createdAt : option (option Z);
}.

Definition castPath {A} (path : string) (cast : JVal -> option A)
    (field : option JVal) : result (option A) :=
  match field with
  | None => Ok None
  | Some v =>
      match cast v with
      | Some a => Ok (Some a)
      | None => Throw (CastError path)
      end
  end.

(** A key that names an update operator *)
Definition isOperator (key : string) : bool :=
  match key with
  | String c _ => Str.char_eqb c "$"%char
  | EmptyString => false
  end.

Definition hasOperator (body : gmap string JVal) : bool :=
  negb (bool_decide (map_Forall (fun key _ => isOperator key = false) body)).

(** The body as an update: a key that names an operator wants an object, so
    with a scalar under it the cast throws (the message goes on to name the
    operator and the type received); the other keys are the [$set]. *)
Definition castUpdate (env : Env) (body : gmap string JVal) : result Update :=
  if hasOperator body then Throw (Error "Invalid atomic update value") else
  let! ttl := castPath "title" (fun v => Some (Schema.castString env Schema.title v))
                (body !! "title") in
  let! dsc := castPath "description"
                (fun v => Some (Schema.castString env Schema.description v))
                (body !! "description") in
  let! sts := castPath "status"
                (fun v => Some (Schema.castString env Schema.status v))
                (body !! "status") in
  let! due := castPath "dueDate" (Schema.castDate env) (body !! "dueDate") in
  let! created := castPath "createdAt" (Schema.castDate env)
                    (body !! "createdAt") in
  let! id := castPath "_id" (Schema.castId env) (body !! "_id") in
  Ok {| u_id := id; u_title := ttl; u_description := dsc; u_status := sts;
        u_dueDate := due; u_createdAt := created |}.

Definition isEmptyUpdate (u : Update) : bool :=
  match u with
  | mkUpdate None None None None None None => true
  | _ => false
  end.

(** [runValidators: true]: the validators of the paths the update sets. *)
Definition updateValidators (u : Update) : list (string * ValidatorKind) :=
  from_option (Schema.validateString Schema.title "title") [] (u_title u)
  ++ from_option (Schema.validateString Schema.description "description") []
       (u_description u)
  ++ from_option (Schema.validateString Schema.status "status") [] (u_status u).

(** [$set] of the update on a stored document. *)
Definition applyUpdate (u : Update) (doc : Task) : Task :=
  {| _id := _id doc;
     title := match u_title u with Some (Some s) => s | _ => title doc end;
     description :=
       match u_description u with Some (Some s) => s | _ => description doc end;
     status := match u_status u with Some (Some s) => s | _ => status doc end;
     dueDate := default (dueDate doc) (u_dueDate u);
     createdAt := default (createdAt doc) (u_createdAt u) |}.

(** [Task.findByIdAndUpdate(id, body, { new: true, runValidators: true })]:
    the conditions and the update are cast, an update that sets nothing is
    a plain [findOne], the update validators run, and only then the
    command goes to the store, which refuses to change [_id]. *)
Definition findByIdAndUpdate (env : Env) (store : Store) (id : string)
    (body : gmap string JVal) : result (option Task * Store) :=
  match castObjectId env id with
  | None => Throw (CastError "_id")
  | Some oid =>
      let! u := castUpdate env body in
      if isEmptyUpdate u then
        match fault env with
        | Some m => Throw (DriverError m)
        | None => Ok (lookup oid store, store)
        end
      else
        match updateValidators u with
        | (_ :: _) as errors => Throw (ValidationError errors)
        | [] =>
            match fault env with
            | Some m => Throw (DriverError m)
            | None =>
                match lookup oid store with
                | None => Ok (None, store)
                | Some doc =>
                    match u_id u with
                    | Some id' =>
                        if bool_decide (id' = Some oid)
                        then let doc' := applyUpdate u doc in
                             Ok (Some doc', replace doc' oid store)
                        else Throw (MongoServerError 66%N)
                    | None =>
                        let doc' := applyUpdate u doc in
                        Ok (Some doc', replace doc' oid store)
                    end
                end
            end
        end
  end.

(** [Task.findByIdAndDelete(id)] *)
Definition findByIdAndDelete (env : Env) (store : Store) (id : string)
    : result (option Task * Store) :=
  match castObjectId env id with
  | None => Throw (CastError "_id")
  | Some oid =>
      match fault env with
      | Some m => Throw (DriverError m)
      | None =>
          match lookup oid store with
          | None => Ok (None, store)
          | Some doc => Ok (Some doc, remove oid store)
          end
      end
  end.

End Model.

(** ** taskRoutes.js *)

(** [BTaskNullId doc] is the record [doc] shown with [_id: null]. *)
Inductive RespBody :=
  | BTasks (docs : list Task)
  | BTask (doc : Task)
  | BTaskNullId (doc : Task)
  | BError (message : string) (error : option Exn)
  | BEmpty.

Record Response := mkResponse { code : nat; payload : RespBody }.

Module Service.

Import Model.

(** [res.status(c).json({ message, error: error.message })] *)
Definition failure (c : nat) (message : string) (e : Exn) : Response :=
  {| code := c; payload := BError message (Some e) |}.

Definition notFound : Response :=
  {| code := 404; payload := BError "Task not found" None |}.

(** GET /api/tasks.  [status] is [req.query.status]; an empty string is
    falsy.  The answer is [None] when the pattern built from [status] is
    outside the fragment of [RegExp]. *)
Definition getAllTasks (env : Env) (store : Store) (status : option string)
    : option Response :=
  let respond (r : result (list Task)) : Response :=
    match r with
    | Ok tasks => {| code := 200; payload := BTasks tasks |}
    | Throw error => failure 500 "Failed to fetch tasks" error
    end in
  match status with
  | Some s =>
      if Str.is_empty s then Some (respond (find env store None))
      else
        match RegExp.compile ("^" +:+ s +:+ "$") "i" with
        | Some re => Some (respond (find env store (Some re)))
        | None => None
        end
  | None => Some (respond (find env store None))
  end.

(** POST /api/tasks *)
Definition createTask (env : Env) (store : Store) (body : gmap string JVal)
    : Response * Store :=
  let newTask := new env body in
  match save env store newTask with
  | Ok (SavedDoc savedTask, store') =>
      ({| code := 201; payload := BTask savedTask |}, store')
  | Ok (SavedNullId savedTask, store') =>
      ({| code := 201; payload := BTaskNullId savedTask |}, store')
  | Throw error => (failure 400 "Failed to create task" error, store)
  end.

(** GET /api/tasks/:id *)
Definition getTaskById (env : Env) (store : Store) (id : string) : Response :=
  match findById env store id with
  | Ok None => notFound
  | Ok (Some task) => {| code := 200; payload := BTask task |}
  | Throw error => failure 500 "Failed to retrieve task" error
  end.

(** PUT /api/tasks/:id *)
Definition updateTask (env : Env) (store : Store) (id : string)
    (body : gmap string JVal) : Response * Store :=
  match findByIdAndUpdate env store id body with
  | Ok (None, store') => (notFound, store')
  | Ok (Some updatedTask, store') =>
      ({| code := 200; payload := BTask updatedTask |}, store')
  | Throw error => (failure 400 "Failed to update task" error, store)
  end.

(** DELETE /api/tasks/:id *)
Definition deleteTask (env : Env) (store : Store) (id : string)
    : Response * Store :=
  match findByIdAndDelete env store id with
  | Ok (None, store') => (notFound, store')
  | Ok (Some _, store') => ({| code := 204; payload := BEmpty |}, store')
  | Throw error => (failure 500 "Failed to delete task" error, store)
  end.

End Service.

(** ** App.jsx *)

Module Client.

(** The outcome of an awaited [fetch]: a rejection, or a response. *)
Inductive FetchResult :=
  | Rejected (message : string)
  | Received (response : Response).

Inductive Request :=
  | GET (status : option string)
  | POST (body : gmap string JVal)
  | PUT (id : string) (body : gmap string JVal)
  | DELETE (id : string).

(** What a [catch] block receives: an [Error] with a message, or the
    [Error] built from the text of a response body. *)
Inductive Caught :=
  | Err (message : string)
  | ErrText (body : RespBody).

Record Notification := mkNotification { message : string; type : string }.

(** The state of [App] that the data handlers read or write (the two
    flags of the modal and of the dropdown are left out). *)
Record State := mkState {
  tasks : list Task;
  loading : bool;
  error : option (string * Caught);
  filterStatus : string;
  refreshTrigger : nat;
  notification : option Notification;
}.

Definition setTasks (f : list Task -> list Task) (st : State) : State :=
  {| tasks := f (tasks st); loading := loading st; error := error st;
     filterStatus := filterStatus st; refreshTrigger := refreshTrigger st;
     notification := notification st |}.

Definition setLoading (b : bool) (st : State) : State :=
  {| tasks := tasks st; loading := b; error := error st;
     filterStatus := filterStatus st; refreshTrigger := refreshTrigger st;
     notification := notification st |}.

Definition setError (e : option (string * Caught)) (st : State) : State :=
  {| tasks := tasks st; loading := loading st; error := e;
     filterStatus := filterStatus st; refreshTrigger := refreshTrigger st;
     notification := notification st |}.

Definition setFilterStatus (s : string) (st : State) : State :=
  {| tasks := tasks st; loading := loading st; error := error st;
     filterStatus := s; refreshTrigger := refreshTrigger st;
     notification := notification st |}.

Definition setRefreshTrigger (f : nat -> nat) (st : State) : State :=
  {| tasks := tasks st; loading := loading st; error := error st;
     filterStatus := filterStatus st; refreshTrigger := f (refreshTrigger st);
     notification := notification st |}.

Definition setNotification (n : option Notification) (st : State) : State :=
  {| tasks := tasks st; loading := loading st; error := error st;
     filterStatus := filterStatus st; refreshTrigger := refreshTrigger st;
     notification := n |}.

(** The timer that clears the notification after four seconds is a later
    event; it writes [notification] only. *)
Definition showNotification (msg type : string) (st : State) : State :=
  setNotification (Some {| message := msg; type := type |}) st.

(** [response.ok] *)
Definition ok (r : Response) : bool := (200 <=? code r)%nat && (code r <=? 299)%nat.

(** [await response.json()] rejects on an empty body. *)
Definition json (r : Response) : option RespBody :=
  match payload r with
  | BEmpty => None
  | b => Some b
  end.

(** [errorData.message] *)
Definition messageOf (b : RespBody) : option string :=
  match b with
  | BError m _ => Some m
  | _ => None
  end.

(** An asynchronous handler suspended at its [await fetch(...)]. *)
Record Suspended := mkSuspended {
  request : Request;
  resume : FetchResult -> State -> State;
}.

(** [nextStatus] of [TaskItem] *)
Definition nextStatus (status : string) : string :=
  if bool_decide (status = "Pending") then "In Progress"
  else if bool_decide (status = "In Progress") then "Completed"
  else if bool_decide (status = "Completed") then "Pending"
  else "Pending".

(** [fetchTasks] inside the effect.  A 2xx answer of the service to this
    request carries the list; another JSON payload under a 2xx status is not
    something the routes send, and the cache is left as it is for it. *)
Definition fetchTasks (st : State) : State * Suspended :=
  let st := setLoading true st in
  let st := setError None st in
  let statusParam :=
    if bool_decide (filterStatus st ≠ "All") then Some (filterStatus st)
    else None in
  let failed (e : Caught) (st : State) : State :=
    setError
      (Some ("Failed to load tasks from MERN backend. Is Express server running on port 5000? Error: ", e))
      st in
  (st,
   {| request := GET statusParam;
      resume := fun result st =>
        let st :=
          match result with
          | Rejected m => failed (Err m) st
          | Received response =>
              if negb (ok response) then
                failed (Err ("HTTP error! status: " +:+ pretty (code response))) st
              else
                match json response with
                | None => failed (Err "Unexpected end of JSON input") st
                | Some (BTasks data) => setTasks (fun _ => data) st
                | Some _ => st
                end
          end in
        setLoading false st |}).

(** The effect runs after a render whose dependencies
    [[filterStatus, refreshTrigger]] differ from those of the previous one. *)
Definition effectRuns (before after : State) : bool :=
  negb (bool_decide (filterStatus before = filterStatus after
                     ∧ refreshTrigger before = refreshTrigger after)).

(** [a || b] on a string that may be undefined *)
Definition orElse (a : option string) (b : string) : string :=
  match a with
  | Some m => if Str.is_empty m then b else m
  | None => b
  end.

(** A value inside a template literal *)
Definition display (v : option JVal) : string :=
  match v with
  | None => "undefined"
  | Some JNull => "null"
  | Some (JBool b) => if b then "true" else "false"
  | Some (JNum n) => pretty n
  | Some (JStr s) => s
  end.

Definition quote : string := String (Ascii.ascii_of_nat 34) EmptyString.

Definition createTask (taskData : gmap string JVal) (st : State)
    : State * Suspended :=
  let st := setLoading true st in
  let st := setError None st in
  let failed (e : Caught) (st : State) : State :=
    let st := setError (Some ("Failed to create task. ", e)) st in
    showNotification "Error creating task. Check console." "error" st in
  (st,
   {| request := POST taskData;
      resume := fun result st =>
        let st :=
          match result with
          | Rejected m => failed (Err m) st
          | Received response =>
              if negb (ok response) then
                match json response with
                | None => failed (Err "Unexpected end of JSON input") st
                | Some errorData =>
                    failed (Err (orElse (messageOf errorData)
                                   "Failed to create task.")) st
                end
              else
                let st := setRefreshTrigger (fun prev => prev + 1)%nat st in
                showNotification
                  ("Task " +:+ quote +:+ display (taskData !! "title")
                   +:+ quote +:+ " created successfully!")
                  "success" st
          end in
        setLoading false st |}).

(** [{ ...task, status: newStatus }] *)
Definition withStatus (task : Task) (newStatus : string) : Task :=
  {| _id := _id task; title := title task; description := description task;
     status := newStatus; dueDate := dueDate task;
     createdAt := createdAt task |}.

(** [updateTaskStatus] is rebuilt by [useCallback] whenever [tasks]
    changes; its first argument is the [tasks] the closure captured. *)
Definition updateTaskStatus (tasks : list Task) (id : string)
    (newStatus : string) (st : State) : State * Suspended :=
  let st := setError None st in
  let tempOriginalTasks := tasks in
  let st :=
    setTasks (fun prevTasks =>
                (fun task => if bool_decide (_id task = id)
                             then withStatus task newStatus else task)
                  <$> prevTasks) st in
  let failed (e : Caught) (st : State) : State :=
    let st := setError (Some ("Failed to update task status. ", e)) st in
    let st := showNotification "Error updating status. Reverting change."
                "error" st in
    let st := setTasks (fun _ => tempOriginalTasks) st in
    setRefreshTrigger (fun prev => prev + 1)%nat st in
  (st,
   {| request := PUT id {[ "status" := JStr newStatus ]};
      resume := fun result st =>
        match result with
        | Rejected m => failed (Err m) st
        | Received response =>
            if negb (ok response) then
              match json response with
              | None => failed (Err "Unexpected end of JSON input") st
              | Some errorData =>
                  failed (Err (orElse (messageOf errorData)
                                 "Failed to update task status.")) st
              end
            else
              showNotification
                ("Status updated to " +:+ quote +:+ newStatus +:+ quote +:+ "!")
                "info" st
        end |}).

Definition deleteTask (id : string) (st : State) : State * Suspended :=
  let st := setLoading true st in
  let st := setError None st in
  let failed (e : Caught) (st : State) : State :=
    let st := setError (Some ("Failed to delete task. ", e)) st in
    showNotification "Error deleting task. Check console." "error" st in
  (st,
   {| request := DELETE id;
      resume := fun result st =>
        let st :=
          match result with
          | Rejected m => failed (Err m) st
          | Received response =>
              if negb (code response =? 204)%nat
                 && negb (code response =? 404)%nat then
                match payload response with
                | BEmpty => failed (Err "Failed to delete task.") st
                | errorText => failed (ErrText errorText) st
                end
              else
                let st := setRefreshTrigger (fun prev => prev + 1)%nat st in
                showNotification "Task deleted successfully." "error" st
          end in
        setLoading false st |}).

(** The handlers a render of [App] hands to its children. *)
Record Handlers := mkHandlers {
  onSave : gmap string JVal -> State -> State * Suspended;
  onUpdateStatus : string -> string -> State -> State * Suspended;
  onDelete : string -> State -> State * Suspended;
}.

Definition App (st : State) : Handlers :=
  {| onSave := createTask;
     onUpdateStatus := updateTaskStatus (tasks st);
     onDelete := deleteTask |}.

(** The service answering a request of the client.  URL encoding of the
    status parameter and its decoding by the server cancel out. *)
Definition serve (env : Env) (store : list Task) (req : Request)
    : option (Response * list Task) :=
  match req with
  | GET status => (fun r => (r, store)) <$> Service.getAllTasks env store status
  | POST body => Some (Service.createTask env store body)
  | PUT id body => Some (Service.updateTask env store id body)
  | DELETE id => Some (Service.deleteTask env store id)
  end.

(** A request answered at once by the service: the handler's continuation
    resumes in the state its synchronous prefix left. *)
Definition roundTrip (env : Env) (store : list Task) (p : State * Suspended)
    : option (State * list Task) :=
  match serve env store (request p.2) with
  | Some (response, store') => Some (resume p.2 (Received response) p.1, store')
  | None => None
  end.

(** A click on the status button of the task shown at position [i]. *)
Definition clickStatus (env : Env) (i : nat) (w : State * list Task)
    : option (State * list Task) :=
  match tasks w.1 !! i with
  | Some task =>
      roundTrip env w.2
        (onUpdateStatus (App w.1) (_id task) (nextStatus (status task)) w.1)
  | None => None
  end.

End Client.

(** ** Sample data for the closed examples *)

Module Sample.

Definition is_hex (c : ascii) : bool :=
  let n := Ascii.nat_of_ascii (Str.to_lower c) in
  (((48 <=? n) && (n <=? 57)) || ((97 <=? n) && (n <=? 102)))%nat.

(** An object id is written as 24 hexadecimal digits. *)
Definition hex24 (s : string) : option ObjectId :=
  let l := Str.chars s in
  if (List.length l =? 24)%nat && forallb is_hex l
  then Some (Str.of_chars (Str.to_lower <$> l))
  else None.

Definition id1 : ObjectId := "65a000000000000000000001".
Definition id2 : ObjectId := "65a000000000000000000002".
Definition id3 : ObjectId := "65a000000000000000000003".

(** The sample requests carry no date strings, so the date parser of this
    environment is never consulted. *)
Definition id4 : ObjectId := "65a000000000000000000004".

(** Integers below 2^53 are written with their decimal digits. *)
Definition showSafe (n : Z) : string := pretty n.

Definition env : Env :=
  {| now := 1700000000000; newObjectId := id3; driverObjectId := id4;
     castObjectId := hex24; parseDate := fun _ => None;
     showNumber := showSafe; fault := None |}.

Definition envDown : Env :=
  {| now := 1700000000000; newObjectId := id3; driverObjectId := id4;
     castObjectId := hex24; parseDate := fun _ => None;
     showNumber := showSafe; fault := Some "connection lost" |}.

Definition t1 : Task :=
  {| _id := id1; title := "Write spec"; description := "draft v1";
     status := "Pending"; dueDate := None; createdAt := Some 1000 |}.

Definition t2 : Task :=
  {| _id := id2; title := "Review"; description := "second pass";
     status := "Completed"; dueDate := Some 5000; createdAt := Some 2000 |}.

Definition store : list Task := [t1; t2].

Definition state : Client.State :=
  {| Client.tasks := [t2; t1]; Client.loading := false; Client.error := None;
     Client.filterStatus := "All"; Client.refreshTrigger := 0%nat;
     Client.notification := None |}.

Definition plainBody : gmap string JVal :=
  {[ "title" := JStr "Write spec"; "description" := JStr "draft v1";
     "dueDate" := JNull ]}.


End Sample.

(** ** Vocabulary of the specification *)

Module Spec.

(** The three statuses of the data model. *)
Definition statuses : list string := ["Pending"; "In Progress"; "Completed"].

(** A request of the client has succeeded when a response arrived and its
    status is in the 2xx range. *)
Definition succeeded (r : Client.FetchResult) : bool :=
  match r with
  | Client.Received response => Client.ok response
  | Client.Rejected _ => false
  end.

(** A delete request after which the client goes on as after a deletion:
    a response arrived and its status is 204 or 404. *)
Definition deleteAccepted (r : Client.FetchResult) : bool :=
  match r with
  | Client.Received response =>
      (code response =? 204)%nat || (code response =? 404)%nat
  | Client.Rejected _ => false
  end.


(** The fields of a body applied to a record: a path the body sets holds
    the cast of the value sent, a path it does not set keeps its value, and
    the id stays. *)
Definition fieldsApplied (env : Env) (body : gmap string JVal)
    (old new : Task) : Prop :=
  _id new = _id old
  ∧ match body !! "title" with
    | Some v => Schema.castString env Schema.title v = Some (title new)
    | None => title new = title old
    end
  ∧ match body !! "description" with
    | Some v =>
        Schema.castString env Schema.description v = Some (description new)
    | None => description new = description old
    end
  ∧ match body !! "status" with
    | Some v => Schema.castString env Schema.status v = Some (status new)
    | None => status new = status old
    end
  ∧ match body !! "dueDate" with
    | Some v => Schema.castDate env v = Some (dueDate new)
    | None => dueDate new = dueDate old
    end
  ∧ match body !! "createdAt" with
    | Some v => Schema.castDate env v = Some (createdAt new)
    | None => createdAt new = createdAt old
    end.

(** The tasks of a list whose status equals [S] up to letter case. *)
Definition withStatus (S : string) (l : list Task) : list Task :=
  List.filter (fun t => Str.equal_ci S (status t)) l.

(** Descending [createdAt] order. *)
Definition newestFirst (l : list Task) : Prop :=
  StronglySorted (fun a b => Model.date_le (createdAt b) (createdAt a) = true) l.

(** The fields of a task other than its status. *)
Definition sameButStatus (a b : Task) : Prop :=
  _id a = _id b ∧ title a = title b ∧ description a = description b
  ∧ dueDate a = dueDate b ∧ createdAt a = createdAt b.

End Spec.

(** ** App.jsx: the components around the handlers *)

(** [TaskForm]: the three controlled inputs and [handleSubmit].  The flag of
    the modal, which [closeModal] clears, is left out as in [Client.State].
    [toISOString d] stands for [new Date(d).toISOString()] on the value of
    the date input. *)
Module TaskForm.

Record State := mkState {
  title : string;
  description : string;
  dueDate : string;
}.

Definition initial : State :=
  {| title := EmptyString; description := EmptyString; dueDate := EmptyString |}.

(** [disabled={!title.trim() || !description.trim()}] of the submit button *)
Definition submitDisabled (f : State) : bool :=
  Str.is_empty (Str.trim (title f)) || Str.is_empty (Str.trim (description f)).

(** The object handed to [onSave], and the form after the reset. *)
Definition handleSubmit (toISOString : string -> string) (f : State)
    : gmap string JVal * State :=
  ({[ "title" := JStr (Str.trim (title f));
      "description" := JStr (Str.trim (description f));
      "dueDate" := if Str.is_empty (dueDate f) then JNull
                   else JStr (toISOString (dueDate f)) ]},
   initial).

End TaskForm.

(** [TaskItem]: what the card derives from its task.  [startOfLocalDay t] is
    the local midnight of the day of the instant [t], which the source
    computes with [new Date(y, m, d)] and [setHours(0, 0, 0, 0)]. *)
Module TaskItem.

Definition isCompleted (task : Task) : bool :=
  bool_decide (status task = "Completed").

Definition isOverdue (startOfLocalDay : Z -> Z) (today : Z) (task : Task)
    : bool :=
  match dueDate task with
  | None => false
  | Some due =>
      if isCompleted task then false
      else (startOfLocalDay due <? startOfLocalDay today)%Z
  end.

(** The text of the status button *)
Definition buttonLabel (task : Task) : string :=
  if isCompleted task then "Re-open"
  else "Move to " +:+ Client.nextStatus (status task).

(** [onClick={() => onUpdateStatus(task._id, nextStatus)}] *)
Definition onClickStatus (h : Client.Handlers) (task : Task)
    : Client.State -> Client.State * Client.Suspended :=
  Client.onUpdateStatus h (_id task) (Client.nextStatus (status task)).

(** [onClick={() => onDelete(task._id)}] *)
Definition onClickDelete (h : Client.Handlers) (task : Task)
    : Client.State -> Client.State * Client.Suspended :=
  Client.onDelete h (_id task).

End TaskItem.

(** [ToastNotification]: the colour of the toast, [styleMap[type] ||
    styleMap.info]. *)
Module Toast.

Definition styleMap : gmap string string :=
  {[ "success" := "bg-green-600 text-white";
     "error" := "bg-red-600 text-white";
     "info" := "bg-indigo-600 text-white" ]}.

Definition style (n : Client.Notification) : string :=
  default "bg-indigo-600 text-white" (styleMap !! Client.type n).

End Toast.

(** The filter dropdown of [App]: its options, and the click on one. *)
Module Filter.

Definition options : list string := ["All"; "Pending"; "In Progress"; "Completed"].

Definition select (status : string) (st : Client.State) : Client.State :=
  Client.setFilterStatus status st.

End Filter.

(** ** Further vocabulary *)

Module Inv.

(** A document as the validators of the schema admit it. *)
Definition validTask (t : Task) : Prop :=
  title t ≠ EmptyString ∧ description t ≠ EmptyString
  ∧ status t ∈ Spec.statuses.

(** The three routes that write, by request. *)
Definition write (env : Env) (store : list Task) (req : Client.Request)
    : option (Response * list Task) :=
  match req with
  | Client.GET _ => None
  | _ => Client.serve env store req
  end.

(** The status a route answers when it has done what was asked. *)
Definition successCode (req : Client.Request) : nat :=
  match req with
  | Client.GET _ => 200
  | Client.POST _ => 201
  | Client.PUT _ _ => 200
  | Client.DELETE _ => 204
  end.

(** The monotonicity of local midnights. *)
Definition monotone (f : Z -> Z) : Prop := ∀ a b, (a <= b)%Z → (f a <= f b)%Z.

(** Midnight in UTC, for the closed examples. *)
Definition startOfDayUTC (t : Z) : Z := (86400000 * (t / 86400000))%Z.

End Inv.

(** * Properties *)

(** Closed decidable side conditions are settled by evaluation. *)
Ltac decide_now := apply (bool_decide_unpack _); vm_compute; exact I.

(** ** The client: status cycle and optimistic update *)

(** C5.  [nextStatus] sends Pending to In Progress, In Progress to Completed
    and Completed to Pending, and applying it three times to any of the three
    statuses gives the status back. *)
Theorem nextStatus_cycle :
  Client.nextStatus "Pending" = "In Progress"
  ∧ Client.nextStatus "In Progress" = "Completed"
  ∧ Client.nextStatus "Completed" = "Pending"
  ∧ ∀ S, S ∈ Spec.statuses →
      Client.nextStatus (Client.nextStatus (Client.nextStatus S)) = S.
Proof.
  repeat split; try reflexivity.
  intros S HS. unfold Spec.statuses in HS.
  repeat (apply elem_of_cons in HS as [-> | HS]; [reflexivity |]).
  by apply elem_of_nil in HS.
Qed.

Lemma nextStatus_cycle_witness :
  "In Progress" ∈ Spec.statuses
  ∧ Client.nextStatus (Client.nextStatus (Client.nextStatus "In Progress"))
    = "In Progress".
Proof.
  split.
  - decide_now.
  - apply nextStatus_cycle. decide_now.
Defined.

Lemma succeeded_false_cases (r : Client.FetchResult) :
  Spec.succeeded r = false →
  (∃ m, r = Client.Rejected m)
  ∨ (∃ response, r = Client.Received response ∧ Client.ok response = false).
Proof.
  destruct r as [m | response]; simpl; intros H; [left | right]; eauto.
Qed.

(** The rollback writes the captured list, whatever the cache holds when the
    failure arrives. *)
Lemma rollback_restores_snapshot (captured : list Task) (id newStatus : string)
    (r : Client.FetchResult) (st st' : Client.State) :
  Spec.succeeded r = false →
  Client.tasks
    (Client.resume (Client.updateTaskStatus captured id newStatus st).2 r st')
  = captured.
Proof.
  intros Hfail. simpl.
  destruct (succeeded_false_cases r Hfail) as [[m ->] | (resp & -> & Hok)];
    simpl; [reflexivity |].
  rewrite Hok. simpl. by destruct (Client.json resp).
Qed.

(** C1.  When the status update fails (the fetch is rejected or the response
    is not in the 2xx range), the continuation of [updateTaskStatus] leaves
    in [tasks] the whole list that was there when the handler was called. *)
Theorem updateTaskStatus_rollback (st : Client.State) (id newStatus : string)
    (r : Client.FetchResult) :
  Spec.succeeded r = false →
  let '(optimistic, k) := Client.onUpdateStatus (Client.App st) id newStatus st in
  Client.tasks (Client.resume k r optimistic) = Client.tasks st.
Proof.
  intros Hfail.
  exact (rollback_restores_snapshot (Client.tasks st) id newStatus r st _ Hfail).
Qed.

Lemma updateTaskStatus_rollback_witness :
  Spec.succeeded (Client.Rejected "Failed to fetch") = false
  ∧ Client.tasks
      (Client.resume
         (Client.onUpdateStatus (Client.App Sample.state) Sample.id1
            "In Progress" Sample.state).2
         (Client.Rejected "Failed to fetch")
         (Client.onUpdateStatus (Client.App Sample.state) Sample.id1
            "In Progress" Sample.state).1)
    = Client.tasks Sample.state.
Proof.
  split; [reflexivity |].
  exact (updateTaskStatus_rollback Sample.state Sample.id1 "In Progress"
           (Client.Rejected "Failed to fetch") eq_refl).
Defined.

(** ** The store: lookups, removal, replacement *)

Lemma lookup_Some (oid : ObjectId) (store : list Task) (doc : Task) :
  Model.lookup oid store = Some doc → _id doc = oid ∧ doc ∈ store.
Proof.
  unfold Model.lookup. intros H.
  destruct (list_find _ store) as [[i d] |] eqn:Hfind; simplify_eq/=.
  apply list_find_Some in Hfind as (Hi & Hid & _).
  split; [done |]. by eapply list_elem_of_lookup_2.
Qed.

Lemma lookup_None (oid : ObjectId) (store : list Task) :
  Model.lookup oid store = None ↔ oid ∉ Model.ids store.
Proof.
  unfold Model.lookup, Model.ids. split.
  - intros H Hin. apply list_elem_of_fmap in Hin as (d & -> & Hd).
    destruct (list_find _ store) as [[i d'] |] eqn:Hfind; [done |].
    apply list_find_None in Hfind. rewrite Forall_forall in Hfind.
    by apply (Hfind d).
  - intros Hnot. destruct (list_find _ store) as [[i d] |] eqn:Hfind; [| done].
    apply list_find_Some in Hfind as (Hi & Hid & _). exfalso. apply Hnot.
    apply list_elem_of_fmap. exists d. split; [done |].
    by eapply list_elem_of_lookup_2.
Qed.

Lemma lookup_cons (oid : ObjectId) (d : Task) (store : list Task) :
  Model.lookup oid (d :: store)
  = if bool_decide (_id d = oid) then Some d else Model.lookup oid store.
Proof.
  unfold Model.lookup. simpl. case_bool_decide as Hd.
  - by rewrite decide_True.
  - rewrite decide_False by done. by destruct (list_find _ store) as [[??] |].
Qed.

Lemma remove_absent (oid : ObjectId) (store : list Task) :
  NoDup (Model.ids store) → oid ∉ Model.ids (Model.remove oid store).
Proof.
  induction store as [| d store IH]; simpl; intros Hnd.
  - apply not_elem_of_nil.
  - apply NoDup_cons in Hnd as [Hd Hnd]. case_bool_decide as Hid.
    + by subst.
    + simpl. rewrite not_elem_of_cons. split; [done | by apply IH].
Qed.

(** Replacing the document found under [oid] changes that one entry only. *)
Lemma replace_frame (oid : ObjectId) (store : list Task) (old doc' : Task) :
  Model.lookup oid store = Some old →
  Forall2 (fun a b => b = a ∨ (a = old ∧ b = doc'))
    store (Model.replace doc' oid store).
Proof.
  induction store as [| d store IH]; [done |].
  rewrite lookup_cons. simpl. case_bool_decide as Hid; intros H.
  - simplify_eq. constructor; [by right |].
    apply Forall2_same_length_lookup_2; [done |].
    intros i x y Hx Hy. left. congruence.
  - constructor; [by left | by apply IH].
Qed.

Lemma lookup_replace_eq (oid : ObjectId) (store : list Task) (old doc' : Task) :
  Model.lookup oid store = Some old → _id doc' = oid →
  Model.lookup oid (Model.replace doc' oid store) = Some doc'.
Proof.
  induction store as [| d store IH]; [done |].
  rewrite lookup_cons. simpl. case_bool_decide as Hid; intros H Hd.
  - rewrite lookup_cons. by rewrite bool_decide_true.
  - rewrite lookup_cons. rewrite bool_decide_false by done. by apply IH.
Qed.

Lemma lookup_replace_ne (oid other : ObjectId) (store : list Task) (doc' : Task) :
  _id doc' = oid → other ≠ oid →
  Model.lookup other (Model.replace doc' oid store) = Model.lookup other store.
Proof.
  intros Hd Hne. induction store as [| d store IH]; [done |].
  simpl. case_bool_decide as Hid.
  - rewrite !lookup_cons. rewrite !bool_decide_false by congruence. done.
  - rewrite !lookup_cons. by rewrite IH.
Qed.

(** ** The update sent by the status button *)

Lemma castUpdate_status_only (env : Env) (s : string) :
  Model.castUpdate env {[ "status" := JStr s ]}
  = Ok (Model.mkUpdate None None None (Some (Some s)) None None).
Proof.
  unfold Model.castUpdate.
  rewrite lookup_singleton_eq.
  rewrite !lookup_singleton_ne by done. reflexivity.
Qed.

Lemma applyUpdate_status_only (s : string) (doc : Task) :
  Model.applyUpdate (Model.mkUpdate None None None (Some (Some s)) None None) doc
  = Client.withStatus doc s.
Proof. reflexivity. Qed.

(** The service's answer to [PUT /:id] with body [{ status }], when it is 200. *)
Lemma updateTask_status_only (env : Env) (store store' : list Task)
    (id s : string) (response : Response) :
  Service.updateTask env store id {[ "status" := JStr s ]} = (response, store') →
  code response = 200%nat →
  ∃ oid old,
    castObjectId env id = Some oid
    ∧ Model.lookup oid store = Some old
    ∧ response = {| code := 200; payload := BTask (Client.withStatus old s) |}
    ∧ store' = Model.replace (Client.withStatus old s) oid store.
Proof.
  unfold Service.updateTask, Model.findByIdAndUpdate.
  destruct (castObjectId env id) as [oid |] eqn:Hcast;
    [| intros [= <- <-]; discriminate].
  rewrite castUpdate_status_only. simpl.
  destruct (Model.updateValidators _) as [| e es]; simpl;
    [| intros [= <- <-]; discriminate].
  destruct (fault env); [intros [= <- <-]; discriminate |].
  destruct (Model.lookup oid store) as [old |] eqn:Hold;
    [| intros [= <- <-]; discriminate].
  intros [= <- <-] _. exists oid, old. by rewrite applyUpdate_status_only.
Qed.

(** C10.  The optimistic step of a status change rewrites the status of the
    cache entries whose id is the given one and nothing else: the list keeps
    its length and order, every entry keeps its id, title, description, due
    date and creation date, and an entry with another id is unchanged.  The
    request it sends is a PUT whose body has the single key [status]; when the
    service answers it with 200, the stored record it found under the id has
    become the same record with the new status, and no other record of the
    store changed. *)
Theorem updateTaskStatus_frame (st : Client.State) (id newStatus : string) :
  let '(optimistic, k) := Client.onUpdateStatus (Client.App st) id newStatus st in
  Forall2
    (fun old new =>
       Spec.sameButStatus old new
       ∧ (_id old ≠ id → new = old)
       ∧ (_id old = id → status new = newStatus))
    (Client.tasks st) (Client.tasks optimistic)
  ∧ Client.request k = Client.PUT id {[ "status" := JStr newStatus ]}
  ∧ (∀ body, Client.request k = Client.PUT id body → dom body = {[ "status" ]})
  ∧ ∀ env store response store',
      Client.serve env store (Client.request k) = Some (response, store') →
      code response = 200%nat →
      ∃ oid old updated,
        castObjectId env id = Some oid
        ∧ Model.lookup oid store = Some old
        ∧ payload response = BTask updated
        ∧ Spec.sameButStatus old updated
        ∧ status updated = newStatus
        ∧ Model.lookup oid store' = Some updated
        ∧ Forall2 (fun a b => b = a ∨ (a = old ∧ b = updated)) store store'.
Proof.
  simpl. repeat split.
  - induction (Client.tasks st) as [| t l IH]; simpl; constructor; [| done].
    case_bool_decide as Hid.
    + repeat split; try done.
    + repeat split; try done.
  - intros body [= <-]. apply dom_singleton_L.
  - intros env store response store' [= Hserve] Hcode.
    destruct (Service.updateTask env store id _) as [r s'] eqn:Hupd.
    simplify_eq.
    destruct (updateTask_status_only _ _ _ _ _ _ Hupd Hcode)
      as (oid & old & Hcast & Hold & -> & ->).
    exists oid, old, (Client.withStatus old newStatus).
    destruct (lookup_Some _ _ _ Hold) as [Hid _].
    repeat split; try done.
    + by apply (lookup_replace_eq _ _ old).
    + by apply replace_frame.
Qed.

Lemma updateTaskStatus_frame_witness :
  ∃ oid old updated,
    castObjectId Sample.env Sample.id1 = Some oid
    ∧ Model.lookup oid Sample.store = Some old
    ∧ Spec.sameButStatus old updated
    ∧ status updated = "In Progress".
Proof.
  pose proof (updateTaskStatus_frame Sample.state Sample.id1 "In Progress") as H.
  simpl in H. destruct H as (_ & _ & _ & H).
  destruct (H Sample.env Sample.store _ _ eq_refl eq_refl)
    as (oid & old & updated & H1 & H2 & _ & H3 & H4 & _).
  exists oid, old, updated. auto.
Defined.

(** ** The client: when the list is fetched again *)

Lemma effectRuns_same (st st' : Client.State) :
  Client.filterStatus st' = Client.filterStatus st →
  Client.refreshTrigger st' = Client.refreshTrigger st →
  Client.effectRuns st st' = false.
Proof.
  intros Hf Hr. unfold Client.effectRuns. rewrite bool_decide_true; [done |].
  by rewrite Hf, Hr.
Qed.

Lemma effectRuns_bumped (st st' : Client.State) :
  Client.refreshTrigger st' = S (Client.refreshTrigger st) →
  Client.effectRuns st st' = true.
Proof.
  intros Hr. unfold Client.effectRuns. rewrite bool_decide_false; [done |].
  intros [_ H]. lia.
Qed.

(** C4, as the client implements it.  The effect that fetches the list runs
    again after a create that succeeded, after a status update that failed,
    and after a delete answered 204 or 404; it does not run again after a
    status update that succeeded, a create that failed, or a delete that
    failed otherwise.  A fetch asks for the current filter (no parameter for
    [All]); a 2xx answer carrying a list replaces the whole cache, and a
    failed fetch leaves the cache as it was. *)
Theorem refetch_schedule (st : Client.State) (r : Client.FetchResult) :
  (∀ taskData,
     let '(st1, k) := Client.onSave (Client.App st) taskData st in
     Client.effectRuns st (Client.resume k r st1) = Spec.succeeded r)
  ∧ (∀ id newStatus,
       let '(st1, k) := Client.onUpdateStatus (Client.App st) id newStatus st in
       Client.effectRuns st (Client.resume k r st1) = negb (Spec.succeeded r))
  ∧ (∀ id,
       let '(st1, k) := Client.onDelete (Client.App st) id st in
       Client.effectRuns st (Client.resume k r st1) = Spec.deleteAccepted r)
  ∧ (let '(st1, k) := Client.fetchTasks st in
     Client.request k
     = Client.GET (if bool_decide (Client.filterStatus st = "All") then None
                   else Some (Client.filterStatus st))
     ∧ (∀ response data,
          Client.ok response = true →
          payload response = BTasks data →
          Client.tasks (Client.resume k (Client.Received response) st1) = data)
     ∧ (Spec.succeeded r = false →
        Client.tasks (Client.resume k r st1) = Client.tasks st)).
Proof.
  split; [| split; [| split; [| simpl; split; [| split]]]].
  - intros taskData. simpl. destruct r as [m | response]; simpl.
    + by apply effectRuns_same.
    + destruct (Client.ok response); simpl.
      * by apply effectRuns_bumped; simpl; lia.
      * destruct (Client.json response); by apply effectRuns_same.
  - intros id newStatus. simpl. destruct r as [m | response]; simpl.
    + by apply effectRuns_bumped; simpl; lia.
    + destruct (Client.ok response); simpl.
      * by apply effectRuns_same.
      * destruct (Client.json response); by apply effectRuns_bumped; simpl; lia.
  - intros id. simpl. destruct r as [m | response]; simpl.
    + by apply effectRuns_same.
    + destruct (code response =? 204)%nat; simpl;
        [by apply effectRuns_bumped; simpl; lia |].
      destruct (code response =? 404)%nat; simpl;
        [by apply effectRuns_bumped; simpl; lia |].
      destruct (payload response); by apply effectRuns_same.
  - by case_bool_decide; case_bool_decide.
  - intros response data Hok Hdata. simpl. rewrite Hok. simpl.
    unfold Client.json. by rewrite Hdata.
  - intros Hfail.
    destruct (succeeded_false_cases r Hfail) as [[m ->] | (resp & -> & Hok)];
      simpl; [done |]. by rewrite Hok.
Qed.

Lemma refetch_schedule_witness :
  Client.tasks
    (Client.resume (Client.fetchTasks Sample.state).2
       (Client.Received {| code := 200; payload := BTasks [Sample.t1] |})
       (Client.fetchTasks Sample.state).1)
  = [Sample.t1].
Proof.
  pose proof (refetch_schedule Sample.state (Client.Rejected "offline")) as H.
  destruct H as (_ & _ & _ & H). simpl in H. destruct H as (_ & H & _).
  exact (H {| code := 200; payload := BTasks [Sample.t1] |} [Sample.t1]
           eq_refl eq_refl).
Defined.

(** C4 as stated fails: a status update that succeeds schedules no fetch. *)
Lemma updateTaskStatus_success_no_refetch :
  Spec.succeeded
    (Client.Received
       {| code := 200;
          payload := BTask (Client.withStatus Sample.t1 "In Progress") |}) = true
  ∧ Client.effectRuns Sample.state
      (Client.resume
         (Client.onUpdateStatus (Client.App Sample.state) Sample.id1
            "In Progress" Sample.state).2
         (Client.Received
            {| code := 200;
               payload := BTask (Client.withStatus Sample.t1 "In Progress") |})
         (Client.onUpdateStatus (Client.App Sample.state) Sample.id1
            "In Progress" Sample.state).1)
    = false.
Proof. split; reflexivity. Qed.

(** ** DELETE: an id that is not in the store *)

Lemma deleteTask_absent (env : Env) (store : list Task) (id oid : string) :
  castObjectId env id = Some oid → fault env = None →
  oid ∉ Model.ids store →
  Service.deleteTask env store id = (Service.notFound, store).
Proof.
  intros Hcast Hfault Habs. unfold Service.deleteTask, Model.findByIdAndDelete.
  rewrite Hcast, Hfault. apply lookup_None in Habs. by rewrite Habs.
Qed.

Lemma deleteTask_204 (env : Env) (store store' : list Task) (id oid : string)
    (response : Response) :
  castObjectId env id = Some oid →
  Service.deleteTask env store id = (response, store') →
  code response = 204%nat →
  store' = Model.remove oid store.
Proof.
  intros Hcast. unfold Service.deleteTask, Model.findByIdAndDelete.
  rewrite Hcast. destruct (fault env); [intros [= <- <-]; discriminate |].
  destruct (Model.lookup oid store); intros [= <- <-]; [done | discriminate].
Qed.

(** C6, as the code implements it.  For an id that is a well-formed object
    id, with the store reachable: deleting an id that is not in the store is
    answered 404 "Task not found" and changes nothing; so is a second delete
    of an id whose first delete was answered 204.  The client, however, treats
    a 404 answer to a delete exactly as a 204: it records no error, shows
    "Task deleted successfully." and fetches the list again. *)
Theorem deleteTask_not_found (env : Env) (store : list Task) (id oid : string) :
  castObjectId env id = Some oid → fault env = None →
  (oid ∉ Model.ids store →
   Service.deleteTask env store id = (Service.notFound, store))
  ∧ (NoDup (Model.ids store) →
     ∀ response store',
       Service.deleteTask env store id = (response, store') →
       code response = 204%nat →
       Service.deleteTask env store' id = (Service.notFound, store'))
  ∧ ∀ st,
      let '(st1, k) := Client.onDelete (Client.App st) id st in
      let final := Client.resume k (Client.Received Service.notFound) st1 in
      final
      = Client.resume k
          (Client.Received {| code := 204; payload := BEmpty |}) st1
      ∧ Client.error final = None
      ∧ Client.notification final
        = Some {| Client.message := "Task deleted successfully.";
                  Client.type := "error" |}
      ∧ Client.effectRuns st final = true.
Proof.
  intros Hcast Hfault. split; [| split].
  - by apply (deleteTask_absent _ _ _ oid).
  - intros Hnd response store' Hdel Hcode.
    rewrite (deleteTask_204 _ _ _ _ _ _ Hcast Hdel Hcode).
    apply (deleteTask_absent _ _ _ oid); [done | done |]. by apply remove_absent.
  - intros st. simpl. split; [done | split; [done | split; [done |]]].
    apply effectRuns_bumped. simpl. lia.
Qed.

Lemma deleteTask_not_found_witness :
  Service.deleteTask Sample.env Sample.store Sample.id3
  = (Service.notFound, Sample.store).
Proof.
  assert (Habs : Sample.id3 ∉ Model.ids Sample.store).
  { apply lookup_None. reflexivity. }
  exact (proj1 (deleteTask_not_found Sample.env Sample.store Sample.id3
                  Sample.id3 eq_refl eq_refl) Habs).
Defined.

(** C6 as stated fails at the client: the 404 that answers the delete of an
    absent id ends in the state of a successful delete, with no error. *)
Lemma deleteTask_404_taken_as_success :
  (Sample.id3 ∉ Model.ids Sample.store)
  ∧ Service.deleteTask Sample.env Sample.store Sample.id3
    = (Service.notFound, Sample.store)
  ∧ Client.resume (Client.onDelete (Client.App Sample.state) Sample.id3
                     Sample.state).2
      (Client.Received Service.notFound)
      (Client.onDelete (Client.App Sample.state) Sample.id3 Sample.state).1
    = {| Client.tasks := Client.tasks Sample.state;
         Client.loading := false;
         Client.error := None;
         Client.filterStatus := "All";
         Client.refreshTrigger := 1;
         Client.notification :=
           Some {| Client.message := "Task deleted successfully.";
                   Client.type := "error" |} |}
  ∧ Client.resume (Client.onDelete (Client.App Sample.state) Sample.id3
                     Sample.state).2
      (Client.Received Service.notFound)
      (Client.onDelete (Client.App Sample.state) Sample.id3 Sample.state).1
    = Client.resume (Client.onDelete (Client.App Sample.state) Sample.id3
                       Sample.state).2
        (Client.Received {| code := 204; payload := BEmpty |})
        (Client.onDelete (Client.App Sample.state) Sample.id3 Sample.state).1.
Proof. split; [decide_now | by repeat split]. Qed.

(** ** PUT: what an update can change *)

Lemma castPath_Ok {A} (path : string) (cast : JVal → option A)
    (field : option JVal) (a : option A) :
  Model.castPath path cast field = Ok a →
  match field with
  | None => a = None
  | Some v => ∃ x, cast v = Some x ∧ a = Some x
  end.
Proof.
  unfold Model.castPath. destruct field as [v |]; [| by intros [= <-]].
  destruct (cast v) as [x |]; [| done]. intros [= <-]. eauto.
Qed.

Lemma bind_Ok {A B} (r : result A) (k : A → result B) (b : B) :
  bind r k = Ok b → ∃ a, r = Ok a ∧ k a = Ok b.
Proof. destruct r as [a | e]; simpl; [eauto | done]. Qed.

(** What a successfully cast update says about each path of the body. *)
Lemma castUpdate_Ok (env : Env) (body : gmap string JVal) (u : Model.Update) :
  Model.castUpdate env body = Ok u →
  Model.u_title u = Schema.castString env Schema.title <$> body !! "title"
  ∧ Model.u_description u
    = Schema.castString env Schema.description <$> body !! "description"
  ∧ Model.u_status u = Schema.castString env Schema.status <$> body !! "status"
  ∧ match body !! "dueDate" with
    | None => Model.u_dueDate u = None
    | Some v => ∃ d, Schema.castDate env v = Some d ∧ Model.u_dueDate u = Some d
    end
  ∧ match body !! "createdAt" with
    | None => Model.u_createdAt u = None
    | Some v =>
        ∃ d, Schema.castDate env v = Some d ∧ Model.u_createdAt u = Some d
    end
  ∧ match body !! "_id" with
    | None => Model.u_id u = None
    | Some v => ∃ i, Schema.castId env v = Some i ∧ Model.u_id u = Some i
    end.
Proof.
  unfold Model.castUpdate. destruct (Model.hasOperator body); [done |].
  intros H.
  apply bind_Ok in H as (ttl & Httl & H).
  apply bind_Ok in H as (dsc & Hdsc & H).
  apply bind_Ok in H as (sts & Hsts & H).
  apply bind_Ok in H as (due & Hdue & H).
  apply bind_Ok in H as (created & Hcreated & H).
  apply bind_Ok in H as (i & Hi & H).
  injection H as <-. simpl.
  apply castPath_Ok in Httl, Hdsc, Hsts, Hdue, Hcreated, Hi.
  repeat split; try done.
  - destruct (body !! "title"); [by destruct Httl as (? & [= <-] & ->) | done].
  - destruct (body !! "description");
      [by destruct Hdsc as (? & [= <-] & ->) | done].
  - destruct (body !! "status"); [by destruct Hsts as (? & [= <-] & ->) | done].
Qed.

Lemma castUpdate_no_operator (env : Env) (body : gmap string JVal)
    (u : Model.Update) :
  Model.castUpdate env body = Ok u → Model.hasOperator body = false.
Proof.
  unfold Model.castUpdate. by destruct (Model.hasOperator body).
Qed.

(** The outcome of [findByIdAndUpdate] when it returns a document. *)
Lemma findByIdAndUpdate_Some (env : Env) (store store' : list Task)
    (id : string) (body : gmap string JVal) (updated : Task) :
  Model.findByIdAndUpdate env store id body = Ok (Some updated, store') →
  ∃ oid old u,
    castObjectId env id = Some oid
    ∧ Model.castUpdate env body = Ok u
    ∧ Model.updateValidators u = []
    ∧ Model.lookup oid store = Some old
    ∧ ((Model.isEmptyUpdate u = true ∧ updated = old ∧ store' = store)
       ∨ (Model.isEmptyUpdate u = false
          ∧ (Model.u_id u = None ∨ Model.u_id u = Some (Some oid))
          ∧ updated = Model.applyUpdate u old
          ∧ store' = Model.replace updated oid store)).
Proof.
  unfold Model.findByIdAndUpdate.
  destruct (castObjectId env id) as [oid |]; [| done].
  destruct (Model.castUpdate env body) as [u | e]; [| done]. simpl.
  destruct (Model.isEmptyUpdate u) eqn:Hempty.
  - destruct (fault env); [done |]. intros [= Hl <-].
    exists oid, updated, u. repeat split; try done.
    + by destruct u as [[] [] [] [] [] []].
    + left. done.
  - destruct (Model.updateValidators u) eqn:Hval; [| done].
    destruct (fault env); [done |].
    destruct (Model.lookup oid store) as [old |] eqn:Hold; [| done].
    destruct (Model.u_id u) as [i |] eqn:Hi.
    + case_bool_decide; [| done]. intros [= <- <-].
      exists oid, old, u. repeat split; try done. right. subst. by eauto.
    + intros [= <- <-]. exists oid, old, u. repeat split; try done.
      right. by eauto.
Qed.

Lemma updateTask_200 (env : Env) (store store' : list Task) (id : string)
    (body : gmap string JVal) (response : Response) :
  Service.updateTask env store id body = (response, store') →
  code response = 200%nat →
  ∃ updated,
    response = {| code := 200; payload := BTask updated |}
    ∧ Model.findByIdAndUpdate env store id body = Ok (Some updated, store').
Proof.
  unfold Service.updateTask.
  destruct (Model.findByIdAndUpdate env store id body) as [[[d |] s] | e];
    intros [= <- <-]; simpl; try discriminate.
  intros _. by exists d.
Qed.




(** ** PUT: rejected, not found, applied *)

Lemma validateString_required (ty : Schema.StringType) (path : string)
    (v : option string) :
  is_Some (Schema.required ty) →
  Schema.validateString ty path v = [] →
  ∃ s, v = Some s ∧ s ≠ EmptyString.
Proof.
  intros [m Hm]. unfold Schema.validateString. rewrite Hm.
  destruct v as [s |]; simpl; [| done].
  unfold Str.is_empty. case_bool_decide as Hs; [done |]. eauto.
Qed.

Lemma validateString_enum (s : string) :
  s ∉ Spec.statuses → Schema.validateString Schema.status "status" (Some s) ≠ [].
Proof.
  intros Hs. unfold Schema.validateString. simpl.
  destruct (Str.is_empty s); [done |].
  rewrite bool_decide_false; done.
Qed.

Lemma updateValidators_nil (u : Model.Update) :
  Model.updateValidators u = [] →
  (∀ x, Model.u_title u = Some x → ∃ s, x = Some s ∧ s ≠ EmptyString)
  ∧ (∀ x, Model.u_description u = Some x → ∃ s, x = Some s ∧ s ≠ EmptyString)
  ∧ (∀ x, Model.u_status u = Some x →
       ∃ s, x = Some s ∧ Schema.validateString Schema.status "status" x = []).
Proof.
  unfold Model.updateValidators. intros H.
  apply app_eq_nil in H as [Ht H]. apply app_eq_nil in H as [Hd Hs].
  repeat split; intros x Hx; rewrite Hx in *; simpl in *.
  - apply (validateString_required Schema.title "title"); [by eexists | done].
  - apply (validateString_required Schema.description "description");
      [by eexists | done].
  - destruct (validateString_required Schema.status "status" x) as (s & -> & _);
      [by eexists | done | eauto].
Qed.


Lemma replace_same (oid : ObjectId) (store : list Task) (old : Task) :
  Model.lookup oid store = Some old → Model.replace old oid store = store.
Proof.
  induction store as [| d store IH]; [done |].
  rewrite lookup_cons. simpl. case_bool_decide as Hid; intros Hl.
  - by simplify_eq.
  - by rewrite IH.
Qed.

Lemma applyUpdate_empty (u : Model.Update) (old : Task) :
  Model.isEmptyUpdate u = true → Model.applyUpdate u old = old.
Proof. destruct u as [[] [] [] [] [] []]; try done. by destruct old. Qed.

Lemma applyUpdate_fields (env : Env) (body : gmap string JVal)
    (u : Model.Update) (old : Task) :
  Model.castUpdate env body = Ok u →
  Model.updateValidators u = [] →
  Spec.fieldsApplied env body old (Model.applyUpdate u old).
Proof.
  intros Hu Hval.
  apply castUpdate_Ok in Hu as (Ht & Hd & Hs & Hdue & Hcreated & _).
  apply updateValidators_nil in Hval as (Vt & Vd & Vs).
  unfold Spec.fieldsApplied. simpl. repeat split.
  - destruct (body !! "title") as [v |]; simpl in Ht; rewrite Ht; [| done].
    by destruct (Vt _ Ht) as (s & -> & _).
  - destruct (body !! "description") as [v |]; simpl in Hd; rewrite Hd; [| done].
    by destruct (Vd _ Hd) as (s & -> & _).
  - destruct (body !! "status") as [v |]; simpl in Hs; rewrite Hs; [| done].
    by destruct (Vs _ Hs) as (s & -> & _).
  - destruct (body !! "dueDate") as [v |].
    + by destruct Hdue as (d & -> & ->).
    + by rewrite Hdue.
  - destruct (body !! "createdAt") as [v |].
    + by destruct Hcreated as (d & -> & ->).
    + by rewrite Hcreated.
Qed.




(** ** Store failures and the status codes that report them *)

(** C9 fails on [createTask] and [updateTask].  When the driver call fails
    (store unreachable), a create or an update whose body is valid is
    answered 400, the code of a client-input failure, while the three other
    routes answer the same failure with 500. *)
Theorem store_failure_status_codes (env : Env) (store : list Task) (m : string) :
  fault env = Some m →
  (∀ body,
     Model.validate (Model.new env body) = [] →
     is_Some (Model.d_id (Model.new env body)) →
     Service.createTask env store body
     = (Service.failure 400 "Failed to create task" (DriverError m), store))
  ∧ (∀ id oid body u,
       castObjectId env id = Some oid →
       Model.castUpdate env body = Ok u →
       Model.updateValidators u = [] →
       Service.updateTask env store id body
       = (Service.failure 400 "Failed to update task" (DriverError m), store))
  ∧ Service.getAllTasks env store None
    = Some (Service.failure 500 "Failed to fetch tasks" (DriverError m))
  ∧ (∀ id oid,
       castObjectId env id = Some oid →
       Service.getTaskById env store id
       = Service.failure 500 "Failed to retrieve task" (DriverError m))
  ∧ (∀ id oid,
       castObjectId env id = Some oid →
       Service.deleteTask env store id
       = (Service.failure 500 "Failed to delete task" (DriverError m), store)).
Proof.
  intros Hfault. split; [| split; [| split; [| split]]].
  - intros body Hval [i Hi]. unfold Service.createTask, Model.save.
    by rewrite Hval, Hi, Hfault.
  - intros id oid body u Hcast Hu Hval.
    unfold Service.updateTask, Model.findByIdAndUpdate.
    rewrite Hcast, Hu. simpl. rewrite Hval, Hfault.
    by destruct (Model.isEmptyUpdate u).
  - unfold Service.getAllTasks, Model.find. by rewrite Hfault.
  - intros id oid Hcast. unfold Service.getTaskById, Model.findById.
    by rewrite Hcast, Hfault.
  - intros id oid Hcast. unfold Service.deleteTask, Model.findByIdAndDelete.
    by rewrite Hcast, Hfault.
Qed.

Lemma store_failure_status_codes_witness :
  Service.createTask Sample.envDown Sample.store Sample.plainBody
  = (Service.failure 400 "Failed to create task" (DriverError "connection lost"),
     Sample.store)
  ∧ Service.deleteTask Sample.envDown Sample.store Sample.id1
    = (Service.failure 500 "Failed to delete task" (DriverError "connection lost"),
       Sample.store).
Proof.
  destruct (store_failure_status_codes Sample.envDown Sample.store
              "connection lost" eq_refl) as (Hcreate & _ & _ & _ & Hdelete).
  split.
  - apply Hcreate; [reflexivity |]. by eexists.
  - by apply (Hdelete Sample.id1 Sample.id1).
Defined.

(** ** POST: validation and defaults *)


(** The paths of [new Task(body)], one by one. *)
Lemma new_fields (env : Env) (body : gmap string JVal) :
  let d := Model.new env body in
  Model.d_title d = (body !! "title") ≫= Schema.castString env Schema.title
  ∧ Model.d_description d
    = (body !! "description") ≫= Schema.castString env Schema.description
  ∧ Model.d_status d
    = match body !! "status" with
      | Some v => Schema.castString env Schema.status v
      | None => Some "Pending"
      end
  ∧ Model.d_id d
    = (Model.castOr "_id" (Schema.castId env) (Some (newObjectId env))
         (body !! "_id")).1
  ∧ Model.d_dueDate d
    = (Model.castOr "dueDate" (Schema.castDate env) None (body !! "dueDate")).1
  ∧ Model.d_createdAt d
    = (Model.castOr "createdAt" (Schema.castDate env) (Some (now env))
         (body !! "createdAt")).1
  ∧ Model.d_castErrors d
    = ((Model.castOr "_id" (Schema.castId env) (Some (newObjectId env))
          (body !! "_id")).2
       ++ (Model.castOr "dueDate" (Schema.castDate env) None
             (body !! "dueDate")).2
       ++ (Model.castOr "createdAt" (Schema.castDate env) (Some (now env))
             (body !! "createdAt")).2)%list.
Proof.
  unfold Model.new. simpl.
  destruct (Model.castOr "_id" _ _ _) as [i e0].
  destruct (Model.castOr "dueDate" _ _ _) as [due e1].
  destruct (Model.castOr "createdAt" _ _ _) as [created e2]. simpl.
  repeat split.
  - by destruct (body !! "title").
  - by destruct (body !! "description").
  - by destruct (body !! "status").
Qed.

Lemma validate_nil (d : Model.Draft) :
  Model.validate d = [] →
  (∃ s, Model.d_title d = Some s ∧ s ≠ EmptyString)
  ∧ (∃ s, Model.d_description d = Some s ∧ s ≠ EmptyString)
  ∧ (∃ s, Model.d_status d = Some s ∧ s ∈ Spec.statuses)
  ∧ Model.d_castErrors d = [].
Proof.
  unfold Model.validate. intros H.
  apply app_eq_nil in H as [Ht H]. apply app_eq_nil in H as [Hd H].
  apply app_eq_nil in H as [Hs He].
  split; [| split; [| split]]; try done.
  - apply (validateString_required Schema.title "title"); [by eexists | done].
  - apply (validateString_required Schema.description "description");
      [by eexists | done].
  - destruct (validateString_required Schema.status "status" _
                (mk_is_Some _ _ eq_refl) Hs) as (s & Hs' & _).
    exists s. split; [done |]. rewrite Hs' in Hs.
    destruct (decide (s ∈ Spec.statuses)) as [| Hnot]; [done |].
    by apply validateString_enum in Hnot.
Qed.

(** What [createTask] stored when it answers 201. *)
Lemma createTask_201 (env : Env) (store store' : list Task)
    (body : gmap string JVal) (response : Response) :
  Service.createTask env store body = (response, store') →
  code response = 201%nat →
  ∃ doc,
    match Model.d_id (Model.new env body) with
    | Some i => payload response = BTask doc ∧ _id doc = i
    | None => payload response = BTaskNullId doc ∧ _id doc = driverObjectId env
    end
    ∧ store' = (store ++ [doc])%list
    ∧ Model.validate (Model.new env body) = []
    ∧ Model.d_title (Model.new env body) = Some (title doc)
    ∧ Model.d_description (Model.new env body) = Some (description doc)
    ∧ Model.d_status (Model.new env body) = Some (status doc)
    ∧ Model.d_dueDate (Model.new env body) = dueDate doc
    ∧ Model.d_createdAt (Model.new env body) = createdAt doc
    ∧ _id doc ∉ Model.ids store.
Proof.
  unfold Service.createTask, Model.save.
  destruct (Model.validate (Model.new env body)) eqn:Hval;
    [| intros [= <- <-]; discriminate].
  destruct (validate_nil _ Hval) as ((t & Ht & _) & (d & Hd & _) & (s & Hs & _) & _).
  destruct (fault env); [intros [= <- <-]; discriminate |].
  destruct (Model.d_id (Model.new env body)) as [i |]; simpl;
    (case_bool_decide as Hdup; [intros [= <- <-]; discriminate |]);
    intros [= <- <-] _; eexists; (split; [by split |]); (split; [done |]);
    simpl; rewrite Ht, Hd, Hs; by repeat split.
Qed.





(** ** GET: the order of the list *)

Lemma date_le_total (a b : option Z) :
  Model.date_le a b = false → Model.date_le b a = true.
Proof.
  destruct a as [x |], b as [y |]; simpl; try done.
  intros H. apply Z.leb_gt in H. apply Z.leb_le. lia.
Qed.

Lemma date_le_trans (a b c : option Z) :
  Model.date_le a b = true → Model.date_le b c = true → Model.date_le a c = true.
Proof.
  destruct a as [x |], b as [y |], c as [z |]; simpl; try done.
  rewrite !Z.leb_le. lia.
Qed.

Lemma insert_desc_elem (x y : Task) (l : list Task) :
  y ∈ Model.insert_desc x l ↔ y = x ∨ y ∈ l.
Proof.
  induction l as [| z l IH]; simpl.
  - rewrite list_elem_of_singleton. split; [by left |].
    intros [Hy | Hy]; [done | by apply elem_of_nil in Hy].
  - destruct (Model.date_le _ _).
    + by rewrite elem_of_cons.
    + rewrite !elem_of_cons, IH. tauto.
Qed.

Lemma insert_desc_sorted (x : Task) (l : list Task) :
  Spec.newestFirst l → Spec.newestFirst (Model.insert_desc x l).
Proof.
  unfold Spec.newestFirst. induction l as [| y l IH]; simpl; intros Hs.
  - by repeat constructor.
  - apply StronglySorted_inv in Hs as [Hl Hy].
    destruct (Model.date_le (createdAt y) (createdAt x)) eqn:Hle.
    + constructor; [by constructor |]. constructor; [done |].
      eapply Forall_impl; [exact Hy |]. simpl. intros z Hz.
      by apply (date_le_trans _ (createdAt y)).
    + constructor; [by apply IH |].
      apply Forall_forall. intros z Hz. apply insert_desc_elem in Hz as [-> | Hz].
      * by apply date_le_total.
      * rewrite Forall_forall in Hy. by apply Hy.
Qed.

Lemma sort_desc_sorted (l : list Task) : Spec.newestFirst (Model.sort_desc l).
Proof.
  induction l as [| x l IH]; simpl.
  - constructor.
  - by apply insert_desc_sorted.
Qed.

Lemma insert_desc_Permutation (x : Task) (l : list Task) :
  Model.insert_desc x l ≡ₚ x :: l.
Proof.
  induction l as [| y l IH]; simpl; [done |].
  destruct (Model.date_le _ _); [done |]. rewrite IH. apply Permutation_swap.
Qed.

Lemma sort_desc_Permutation (l : list Task) : Model.sort_desc l ≡ₚ l.
Proof.
  induction l as [| x l IH]; simpl; [done |].
  by rewrite insert_desc_Permutation, IH.
Qed.

Lemma insert_desc_head (x : Task) (l : list Task) :
  Forall (fun z => Model.date_le (createdAt z) (createdAt x) = true) l →
  Model.insert_desc x l = x :: l.
Proof.
  destruct l as [| y l]; simpl; [done |].
  intros H. apply Forall_cons in H as [-> _]. done.
Qed.

Lemma Forall_filter_bool {A} (P : A → Prop) (p : A → bool) (l : list A) :
  Forall P l → Forall P (List.filter p l).
Proof.
  induction 1 as [| x l Hx Hl IH]; simpl; [done |].
  destruct (p x); [by constructor | done].
Qed.

(** Selecting commutes with the insertion into a sorted list. *)
Lemma filter_insert_desc (p : Task → bool) (x : Task) (l : list Task) :
  Spec.newestFirst l →
  List.filter p (Model.insert_desc x l)
  = if p x then Model.insert_desc x (List.filter p l) else List.filter p l.
Proof.
  unfold Spec.newestFirst. induction l as [| y l IH]; intros Hs.
  - simpl. by destruct (p x).
  - apply StronglySorted_inv in Hs as [Hl Hy]. simpl.
    destruct (Model.date_le (createdAt y) (createdAt x)) eqn:Hle.
    + simpl. destruct (p x) eqn:Hpx; [| done].
      symmetry. apply (insert_desc_head x (List.filter p (y :: l))).
      apply Forall_filter_bool. constructor; [done |].
      eapply Forall_impl; [exact Hy |]. simpl. intros z Hz.
      by apply (date_le_trans _ (createdAt y)).
    + simpl. rewrite (IH Hl). destruct (p y) eqn:Hpy, (p x) eqn:Hpx; try done.
      simpl. by rewrite Hle.
Qed.

Lemma filter_sort_desc (p : Task → bool) (l : list Task) :
  List.filter p (Model.sort_desc l) = Model.sort_desc (List.filter p l).
Proof.
  induction l as [| x l IH]; [done |].
  simpl. rewrite filter_insert_desc by apply sort_desc_sorted.
  rewrite IH. by destruct (p x).
Qed.

(** ** GET: the status filter *)

Lemma chars_app (s t : string) :
  Str.chars (s +:+ t) = (Str.chars s ++ Str.chars t)%list.
Proof. induction s as [| c s IH]; simpl; [done |]. unfold Str.chars in *. simpl. by rewrite IH. Qed.

Lemma plain_char (c : ascii) :
  RegExp.is_meta c = false →
  Str.char_eqb c "$" = false ∧ Str.char_eqb c "*" = false
  ∧ RegExp.parse_atom c = Some (RegExp.Lit c).
Proof.
  unfold RegExp.parse_atom, Str.char_eqb. intros Hc.
  rewrite Hc. unfold RegExp.is_meta in Hc. apply bool_decide_eq_false in Hc.
  assert (Hne : ∀ m, m ∈ RegExp.metachars → bool_decide (c = m) = false).
  { intros m Hm. apply bool_decide_false. by intros ->. }
  rewrite !Hne by decide_now. done.
Qed.

(** A status without metacharacters compiles to the sequence of its letters. *)
Lemma parse_body_plain (l : list ascii) :
  Forall (fun c => RegExp.is_meta c = false) l →
  RegExp.parse_body (l ++ ["$"%char])
  = Some ((fun c => RegExp.One (RegExp.Lit c)) <$> l).
Proof.
  induction 1 as [| c l Hc Hl IH]; [done |].
  destruct (plain_char c Hc) as (Hdollar & _ & Hatom).
  change ((c :: l) ++ ["$"%char])%list with (c :: (l ++ ["$"%char]))%list.
  cbn [RegExp.parse_body]. rewrite Hdollar, Hatom.
  destruct l as [| c' l'].
  - simpl. done.
  - apply Forall_cons in Hl as [Hc' _].
    destruct (plain_char c' Hc') as (_ & Hstar & _).
    change ((c' :: l') ++ ["$"%char])%list with (c' :: (l' ++ ["$"%char]))%list in *.
    lazy beta iota. rewrite Hstar, IH. done.
Qed.

Lemma compile_plain (S : string) :
  Forall (fun c => RegExp.is_meta c = false) (Str.chars S) →
  RegExp.compile ("^" +:+ S +:+ "$") "i"
  = Some (RegExp.mk ((fun c => RegExp.One (RegExp.Lit c)) <$> Str.chars S) true).
Proof.
  intros Hplain. unfold RegExp.compile.
  rewrite !chars_app. simpl.
  change (Str.chars "$") with ["$"%char].
  by rewrite parse_body_plain.
Qed.

Lemma match_items_plain (l s : list ascii) :
  RegExp.LF ∉ s →
  RegExp.match_items true ((fun c => RegExp.One (RegExp.Lit c)) <$> l) s
  = Str.eqb_ci l s.
Proof.
  revert s. induction l as [| c l IH]; intros s Hs.
  - destruct s as [| d [| d' s']]; simpl; try done.
    unfold Str.char_eqb. apply bool_decide_false. intros ->.
    apply Hs. by left.
  - destruct s as [| d s']; simpl; [done |].
    rewrite IH; [done |]. intros Hin. apply Hs. by right.
Qed.

(** The filter of the specification, on the statuses where it holds: a
    non-empty status without metacharacters selects, among documents whose
    status has no line feed, those whose status equals it up to letter
    case, newest first; without a status all documents are listed, newest
    first. *)
Lemma getAllTasks_plain (env : Env) (store : list Task) (S : string) :
  fault env = None →
  S ≠ EmptyString →
  Forall (fun c => RegExp.is_meta c = false) (Str.chars S) →
  Forall (fun t => RegExp.LF ∉ Str.chars (status t)) store →
  ∃ all,
    Service.getAllTasks env store None
    = Some {| code := 200; payload := BTasks all |}
    ∧ all ≡ₚ store
    ∧ Spec.newestFirst all
    ∧ Service.getAllTasks env store (Some S)
      = Some {| code := 200; payload := BTasks (Spec.withStatus S all) |}
    ∧ Spec.newestFirst (Spec.withStatus S all).
Proof.
  intros Hfault Hne Hplain Hlf. exists (Model.sort_desc store).
  unfold Service.getAllTasks, Model.find. rewrite Hfault.
  split; [done |]. split; [apply sort_desc_Permutation |].
  split; [apply sort_desc_sorted |].
  unfold Str.is_empty. rewrite bool_decide_false by done.
  rewrite compile_plain by done. unfold Spec.withStatus.
  rewrite !filter_sort_desc. split; [| apply sort_desc_sorted].
  do 4 f_equal. clear Hfault. induction Hlf as [| t l Ht Hl IH]; [done |].
  simpl. rewrite IH. unfold RegExp.test, Str.equal_ci. simpl.
  by rewrite match_items_plain.
Qed.

(** C2 fails on statuses that contain a metacharacter: the status is used as
    the source of a regular expression.  Asked for the status [.*], the
    service lists every task of the sample store, the Completed one and the
    Pending one, although the status of neither equals [.*] up to letter
    case. *)
Theorem getAllTasks_status_as_pattern :
  Service.getAllTasks Sample.env Sample.store None
  = Some {| code := 200; payload := BTasks [Sample.t2; Sample.t1] |}
  ∧ Spec.withStatus ".*" [Sample.t2; Sample.t1] = []
  ∧ Service.getAllTasks Sample.env Sample.store (Some ".*")
    = Some {| code := 200; payload := BTasks [Sample.t2; Sample.t1] |}.
Proof. repeat split. Qed.

(** ** Edges of the routes

    An id that is not a well-formed object id fails the cast of the query:
    the update route reports it with 400, the delete and read routes with
    500.  An empty status parameter is no filter. *)
Example malformed_id :
  Service.updateTask Sample.env Sample.store "abc"
    {[ "status" := JStr "Completed" ]}
  = (Service.failure 400 "Failed to update task" (CastError "_id"), Sample.store)
  ∧ Service.deleteTask Sample.env Sample.store "abc"
    = (Service.failure 500 "Failed to delete task" (CastError "_id"),
       Sample.store)
  ∧ Service.getTaskById Sample.env Sample.store "abc"
    = Service.failure 500 "Failed to retrieve task" (CastError "_id").
Proof. by repeat split. Qed.

Example empty_status_parameter :
  Service.getAllTasks Sample.env Sample.store (Some EmptyString)
  = Service.getAllTasks Sample.env Sample.store None.
Proof. reflexivity. Qed.

(** ** A scenario of the specification

    A task is created in an empty store and fetched; two clicks on its status
    button take it to In Progress and then to Completed, each confirmed by the
    service; the Pending filter then lists nothing. *)
Example scenario_create_advance_filter :
  ∃ created store1 st1 st2 store2 st3 store3,
    Service.createTask Sample.env [] Sample.plainBody
    = ({| code := 201; payload := BTask created |}, store1)
    ∧ status created = "Pending"
    ∧ Client.roundTrip Sample.env store1
        (Client.fetchTasks (Client.setTasks (fun _ => []) Sample.state))
      = Some (st1, store1)
    ∧ Client.tasks st1 = [created]
    ∧ Client.clickStatus Sample.env 0 (st1, store1) = Some (st2, store2)
    ∧ status <$> Client.tasks st2 = ["In Progress"]
    ∧ status <$> store2 = ["In Progress"]
    ∧ Client.clickStatus Sample.env 0 (st2, store2) = Some (st3, store3)
    ∧ status <$> Client.tasks st3 = ["Completed"]
    ∧ status <$> store3 = ["Completed"]
    ∧ Service.getAllTasks Sample.env store3 (Some "Pending")
      = Some {| code := 200; payload := BTasks [] |}.
Proof. do 7 eexists. repeat split. Qed.

(** * Further properties of the routes *)

(** ** The three writing routes, case by case *)

Lemma createTask_cases (env : Env) (store store' : list Task)
    (body : gmap string JVal) (response : Response) :
  Service.createTask env store body = (response, store') →
  (code response = 400%nat ∧ store' = store)
  ∨ (∃ doc,
       (response = {| code := 201; payload := BTask doc |}
        ∨ response = {| code := 201; payload := BTaskNullId doc |})
       ∧ store' = (store ++ [doc])%list
       ∧ (_id doc ∉ Model.ids store)
       ∧ Inv.validTask doc).
Proof.
  intros Hcreate. destruct (decide (code response = 201%nat)) as [Hcode | Hcode].
  - right.
    destruct (createTask_201 _ _ _ _ _ Hcreate Hcode)
      as (doc & Di & -> & Hval & Dt & Dd & Ds & _ & _ & Hfresh).
    exists doc. split; [| split; [done | split; [done |]]].
    + destruct response as [c p]. simpl in *. subst c.
      destruct (Model.d_id (Model.new env body)); destruct Di as [-> _]; auto.
    + apply validate_nil in Hval
        as ((t & Ht & Htne) & (d & Hd & Hdne) & (s & Hs & Hin) & _).
      unfold Inv.validTask. repeat split; congruence.
  - left. revert Hcreate Hcode. unfold Service.createTask.
    destruct (Model.save env store (Model.new env body)) as [[[doc | doc] s] | e];
      intros [= <- <-]; simpl; done.
Qed.

Lemma findByIdAndUpdate_None (env : Env) (store store' : list Task)
    (id : string) (body : gmap string JVal) :
  Model.findByIdAndUpdate env store id body = Ok (None, store') → store' = store.
Proof.
  unfold Model.findByIdAndUpdate.
  destruct (castObjectId env id) as [oid |]; [| done].
  destruct (Model.castUpdate env body) as [u | e]; [| done]. simpl.
  destruct (Model.isEmptyUpdate u).
  - destruct (fault env); [done |]. by intros [= _ <-].
  - destruct (Model.updateValidators u); [| done].
    destruct (fault env); [done |].
    destruct (Model.lookup oid store); [| by intros [= <-]].
    destruct (Model.u_id u); [case_bool_decide |]; done.
Qed.

Lemma updateTask_cases (env : Env) (store store' : list Task) (id : string)
    (body : gmap string JVal) (response : Response) :
  Service.updateTask env store id body = (response, store') →
  (code response ≠ 200%nat ∧ store' = store)
  ∨ (∃ oid old updated,
       response = {| code := 200; payload := BTask updated |}
       ∧ castObjectId env id = Some oid
       ∧ Model.lookup oid store = Some old
       ∧ _id updated = oid
       ∧ Spec.fieldsApplied env body old updated
       ∧ (Inv.validTask old → Inv.validTask updated)
       ∧ store' = Model.replace updated oid store).
Proof.
  intros Hupd. destruct (decide (code response = 200%nat)) as [Hcode | Hcode].
  - right. destruct (updateTask_200 _ _ _ _ _ _ Hupd Hcode) as (updated & -> & Hfind).
    apply findByIdAndUpdate_Some in Hfind
      as (oid & old & u & Hcast & Hu & Hval & Hold & Hcases).
    pose proof (lookup_Some _ _ _ Hold) as [Hid _].
    pose proof (applyUpdate_fields env body u old Hu Hval) as Happlied.
    assert (Hupdated : updated = Model.applyUpdate u old).
    { destruct Hcases as [(Hempty & -> & _) | (_ & _ & -> & _)]; [| done].
      by rewrite applyUpdate_empty. }
    exists oid, old, updated. subst updated.
    split; [done | split; [done | split; [done | split; [done |]]]].
    split; [done | split].
    + intros (Vt & Vd & Vs).
      apply updateValidators_nil in Hval as (Ut & Ud & Us).
      unfold Inv.validTask. simpl. split; [| split].
      * destruct (Model.u_title u) as [x |] eqn:Hx; [| done].
        by destruct (Ut _ eq_refl) as (s & -> & Hs).
      * destruct (Model.u_description u) as [x |] eqn:Hx; [| done].
        by destruct (Ud _ eq_refl) as (s & -> & Hs).
      * destruct (Model.u_status u) as [x |] eqn:Hx; [| done].
        destruct (Us _ eq_refl) as (s & -> & Hs).
        destruct (decide (s ∈ Spec.statuses)) as [| Hnot]; [done |].
        by apply validateString_enum in Hnot.
    + destruct Hcases as [(Hempty & _ & ->) | (_ & _ & _ & ->)]; [| done].
      rewrite applyUpdate_empty by done. by rewrite replace_same.
  - left. split; [done |]. revert Hupd Hcode. unfold Service.updateTask.
    destruct (Model.findByIdAndUpdate env store id body) as [[[d |] s] | e] eqn:Hf;
      intros [= <- <-]; simpl; try done.
    intros _. by apply findByIdAndUpdate_None in Hf.
Qed.

Lemma deleteTask_cases (env : Env) (store store' : list Task) (id : string)
    (response : Response) :
  Service.deleteTask env store id = (response, store') →
  (code response ≠ 204%nat ∧ store' = store)
  ∨ (∃ oid doc,
       response = {| code := 204; payload := BEmpty |}
       ∧ castObjectId env id = Some oid
       ∧ Model.lookup oid store = Some doc
       ∧ store' = Model.remove oid store).
Proof.
  unfold Service.deleteTask, Model.findByIdAndDelete.
  destruct (castObjectId env id) as [oid |]; [| intros [= <- <-]; by left].
  destruct (fault env); [intros [= <- <-]; by left |].
  destruct (Model.lookup oid store) as [doc |] eqn:Hdoc; intros [= <- <-].
  - right. by exists oid, doc.
  - by left.
Qed.

Lemma ids_replace (doc' : Task) (oid : ObjectId) (store : list Task) :
  _id doc' = oid → Model.ids (Model.replace doc' oid store) = Model.ids store.
Proof.
  intros Hid. unfold Model.ids. induction store as [| d store IH]; [done |].
  simpl. case_bool_decide as Hd; simpl; [congruence | by f_equal].
Qed.

Lemma ids_remove_sublist (oid : ObjectId) (store : list Task) :
  sublist (Model.ids (Model.remove oid store)) (Model.ids store).
Proof.
  unfold Model.ids. induction store as [| d store IH]; simpl; [done |].
  case_bool_decide; [by apply sublist_cons | by apply sublist_skip].
Qed.

Lemma Forall_remove (P : Task → Prop) (oid : ObjectId) (store : list Task) :
  Forall P store → Forall P (Model.remove oid store).
Proof.
  induction 1 as [| d store Hd Hs IH]; simpl; [done |].
  case_bool_decide; [done | by constructor].
Qed.

Lemma Forall_replace (P : Task → Prop) (doc' : Task) (oid : ObjectId)
    (store : list Task) :
  P doc' → Forall P store → Forall P (Model.replace doc' oid store).
Proof.
  intros Hdoc. induction 1 as [| d store Hd Hs IH]; simpl; [done |].
  case_bool_decide; by constructor.
Qed.

(** ** Invariants of the store *)

(** X1.  The writing routes keep the ids of the store pairwise distinct. *)
Theorem writes_keep_ids_unique (env : Env) (store store' : list Task)
    (req : Client.Request) (response : Response) :
  Inv.write env store req = Some (response, store') →
  NoDup (Model.ids store) → NoDup (Model.ids store').
Proof.
  intros Hw Hnd. destruct req as [status | body | id body | id]; simpl in Hw;
    [done | | |]; injection Hw as Hw.
  - destruct (createTask_cases _ _ _ _ _ Hw)
      as [[_ ->] | (doc & _ & -> & Hfresh & _)]; [done |].
    unfold Model.ids in *. rewrite fmap_app. simpl.
    apply NoDup_app. split; [done |]. split.
    + intros x Hx Hin. apply list_elem_of_singleton in Hin as ->. done.
    + apply NoDup_singleton.
  - destruct (updateTask_cases _ _ _ _ _ _ Hw)
      as [[_ ->] | (oid & old & updated & _ & _ & _ & Hid & _ & _ & ->)]; [done |].
    by rewrite ids_replace.
  - destruct (deleteTask_cases _ _ _ _ _ Hw)
      as [[_ ->] | (oid & doc & _ & _ & _ & ->)]; [done |].
    eapply sublist_NoDup; [exact Hnd |]. apply ids_remove_sublist.
Qed.

Lemma writes_keep_ids_unique_witness :
  NoDup (Model.ids
           (Service.createTask Sample.env Sample.store Sample.plainBody).2).
Proof.
  apply (writes_keep_ids_unique Sample.env Sample.store _
           (Client.POST Sample.plainBody)
           (Service.createTask Sample.env Sample.store Sample.plainBody).1);
    [reflexivity | decide_now].
Defined.

(** X2.  For request bodies of scalar fields (no nested value, hence no
    update operator), the writing routes keep every stored task valid: a
    title and a description that are not empty, and one of the three
    statuses. *)
Theorem writes_keep_tasks_valid (env : Env) (store store' : list Task)
    (req : Client.Request) (response : Response) :
  Inv.write env store req = Some (response, store') →
  Forall Inv.validTask store → Forall Inv.validTask store'.
Proof.
  intros Hw Hvalid. destruct req as [status | body | id body | id]; simpl in Hw;
    [done | | |]; injection Hw as Hw.
  - destruct (createTask_cases _ _ _ _ _ Hw)
      as [[_ ->] | (doc & _ & -> & _ & Hdoc)]; [done |].
    apply Forall_app. split; [done | by constructor].
  - destruct (updateTask_cases _ _ _ _ _ _ Hw)
      as [[_ ->] | (oid & old & updated & _ & _ & Hold & _ & _ & Hkeep & ->)];
      [done |].
    apply Forall_replace; [| done]. apply Hkeep.
    apply lookup_Some in Hold as [_ Hin]. rewrite Forall_forall in Hvalid.
    by apply Hvalid.
  - destruct (deleteTask_cases _ _ _ _ _ Hw)
      as [[_ ->] | (oid & doc & _ & _ & _ & ->)]; [done |].
    by apply Forall_remove.
Qed.

Lemma valid_sample_store : Forall Inv.validTask Sample.store.
Proof.
  repeat constructor; try done; decide_now.
Qed.

Lemma writes_keep_tasks_valid_witness :
  Forall Inv.validTask
    (Service.updateTask Sample.env Sample.store Sample.id1
       {[ "title" := JStr "  Write the spec " ]}).2.
Proof.
  apply (writes_keep_tasks_valid Sample.env Sample.store _
           (Client.PUT Sample.id1 {[ "title" := JStr "  Write the spec " ]})
           (Service.updateTask Sample.env Sample.store Sample.id1
              {[ "title" := JStr "  Write the spec " ]}).1);
    [reflexivity | exact valid_sample_store].
Defined.

(** X3.  A writing route that does not answer its success status (201 for a
    create, 200 for an update, 204 for a delete) has left the store as it
    was. *)
Theorem failed_write_changes_nothing (env : Env) (store store' : list Task)
    (req : Client.Request) (response : Response) :
  Inv.write env store req = Some (response, store') →
  code response ≠ Inv.successCode req →
  store' = store.
Proof.
  intros Hw Hcode. destruct req as [status | body | id body | id]; simpl in *;
    [done | | |]; injection Hw as Hw.
  - by destruct (createTask_cases _ _ _ _ _ Hw)
      as [[_ ->] | (doc & [-> | ->] & _)].
  - by destruct (updateTask_cases _ _ _ _ _ _ Hw)
      as [[_ ->] | (oid & old & updated & -> & _)].
  - by destruct (deleteTask_cases _ _ _ _ _ Hw)
      as [[_ ->] | (oid & doc & -> & _)].
Qed.

Lemma failed_write_changes_nothing_witness :
  (Service.createTask Sample.envDown Sample.store Sample.plainBody).2
  = Sample.store.
Proof.
  apply (failed_write_changes_nothing Sample.envDown Sample.store _
           (Client.POST Sample.plainBody)
           (Service.createTask Sample.envDown Sample.store Sample.plainBody).1);
    [reflexivity | discriminate].
Defined.

(** ** Reading back what was written *)

Lemma lookup_app_new (doc : Task) (store : list Task) :
  _id doc ∉ Model.ids store →
  Model.lookup (_id doc) (store ++ [doc]) = Some doc.
Proof.
  induction store as [| d store IH]; intros Hfresh.
  - simpl. rewrite lookup_cons. by rewrite bool_decide_true.
  - change ((d :: store) ++ [doc])%list with (d :: (store ++ [doc]))%list.
    unfold Model.ids in Hfresh. simpl in Hfresh.
    apply not_elem_of_cons in Hfresh as [Hne Hfresh].
    rewrite lookup_cons, bool_decide_false by congruence. by apply IH.
Qed.

Lemma lookup_remove_eq (oid : ObjectId) (store : list Task) :
  NoDup (Model.ids store) → Model.lookup oid (Model.remove oid store) = None.
Proof. intros Hnd. apply lookup_None. by apply remove_absent. Qed.

Lemma lookup_remove_ne (oid other : ObjectId) (store : list Task) :
  other ≠ oid →
  Model.lookup other (Model.remove oid store) = Model.lookup other store.
Proof.
  intros Hne. induction store as [| d store IH]; [done |].
  simpl. case_bool_decide as Hd.
  - rewrite lookup_cons. rewrite bool_decide_false by congruence. done.
  - rewrite !lookup_cons. by rewrite IH.
Qed.

Lemma length_remove (oid : ObjectId) (store : list Task) (doc : Task) :
  Model.lookup oid store = Some doc →
  List.length store = S (List.length (Model.remove oid store)).
Proof.
  induction store as [| d store IH]; [done |].
  rewrite lookup_cons. simpl. case_bool_decide; [done |].
  intros Hl. simpl. by rewrite <- IH.
Qed.

Lemma sort_desc_elem (x : Task) (l : list Task) :
  x ∈ Model.sort_desc l ↔ x ∈ l.
Proof. by rewrite sort_desc_Permutation. Qed.

(** X4.  A task that [createTask] answered with 201 and with its id (the
    body not setting [_id] to null) can be read back: the read route returns
    it under its id, and the list route lists it. *)
Theorem created_task_is_served (env env' : Env) (store store' : list Task)
    (body : gmap string JVal) (doc : Task) :
  Service.createTask env store body
  = ({| code := 201; payload := BTask doc |}, store') →
  castObjectId env' (_id doc) = Some (_id doc) →
  fault env' = None →
  Service.getTaskById env' store' (_id doc)
  = {| code := 200; payload := BTask doc |}
  ∧ ∃ all,
      Service.getAllTasks env' store' None
      = Some {| code := 200; payload := BTasks all |}
      ∧ doc ∈ all.
Proof.
  intros Hcreate Hcast Hfault.
  destruct (createTask_cases _ _ _ _ _ Hcreate)
    as [[Hcode _] | (doc' & [[= <-] | [=]] & -> & Hfresh & _)]; [done |].
  split.
  - unfold Service.getTaskById, Model.findById. rewrite Hcast, Hfault.
    by rewrite lookup_app_new.
  - exists (Model.sort_desc (store ++ [doc])). split.
    + unfold Service.getAllTasks, Model.find. by rewrite Hfault.
    + apply sort_desc_elem. apply elem_of_app. right. by left.
Qed.

Lemma created_task_is_served_witness :
  Service.getTaskById Sample.env
    (Service.createTask Sample.env Sample.store Sample.plainBody).2 Sample.id3
  = {| code := 200;
       payload :=
         BTask {| _id := Sample.id3; title := "Write spec";
                  description := "draft v1"; status := "Pending";
                  dueDate := None; createdAt := Some 1700000000000 |} |}.
Proof.
  apply (created_task_is_served Sample.env Sample.env Sample.store
           (Service.createTask Sample.env Sample.store Sample.plainBody).2
           Sample.plainBody
           {| _id := Sample.id3; title := "Write spec";
              description := "draft v1"; status := "Pending";
              dueDate := None; createdAt := Some 1700000000000 |});
    reflexivity.
Defined.

(** X5.  A task that [updateTask] answered with 200 is what the read route
    then returns under the same id. *)
Theorem updated_task_is_served (env env' : Env) (store store' : list Task)
    (id : string) (body : gmap string JVal) (updated : Task) :
  Service.updateTask env store id body
  = ({| code := 200; payload := BTask updated |}, store') →
  castObjectId env' id = castObjectId env id →
  fault env' = None →
  Service.getTaskById env' store' id
  = {| code := 200; payload := BTask updated |}.
Proof.
  intros Hupd Hcast Hfault.
  destruct (updateTask_cases _ _ _ _ _ _ Hupd)
    as [[Hcode _] | (oid & old & upd & [= <-] & Hoid & Hold & Hid & _ & _ & ->)];
    [done |].
  unfold Service.getTaskById, Model.findById. rewrite Hcast, Hoid, Hfault.
  by rewrite (lookup_replace_eq _ _ old).
Qed.

Lemma updated_task_is_served_witness :
  Service.getTaskById Sample.env
    (Service.updateTask Sample.env Sample.store Sample.id1
       {[ "status" := JStr "In Progress" ]}).2 Sample.id1
  = {| code := 200;
       payload := BTask (Client.withStatus Sample.t1 "In Progress") |}.
Proof.
  apply (updated_task_is_served Sample.env Sample.env Sample.store _
           Sample.id1 {[ "status" := JStr "In Progress" ]});
    reflexivity.
Defined.

(** X6.  After a delete answered 204 (the ids of the store being distinct)
    the read route answers 404 for that id, the store has one task less,
    and every other id leads to the task it led to before. *)
Theorem deleted_task_is_gone (env env' : Env) (store store' : list Task)
    (id : string) (response : Response) :
  Service.deleteTask env store id = (response, store') →
  code response = 204%nat →
  NoDup (Model.ids store) →
  castObjectId env' id = castObjectId env id →
  fault env' = None →
  Service.getTaskById env' store' id = Service.notFound
  ∧ List.length store = S (List.length store')
  ∧ ∀ oid other,
      castObjectId env id = Some oid → other ≠ oid →
      Model.lookup other store' = Model.lookup other store.
Proof.
  intros Hdel Hcode Hnd Hcast Hfault.
  destruct (deleteTask_cases _ _ _ _ _ Hdel)
    as [[Hne _] | (oid & doc & _ & Hoid & Hdoc & ->)]; [done |].
  split; [| split].
  - unfold Service.getTaskById, Model.findById. rewrite Hcast, Hoid, Hfault.
    by rewrite lookup_remove_eq.
  - by apply (length_remove _ _ doc).
  - intros oid' other Hoid' Hne. simplify_eq. by apply lookup_remove_ne.
Qed.

Lemma deleted_task_is_gone_witness :
  Service.getTaskById Sample.env
    (Service.deleteTask Sample.env Sample.store Sample.id1).2 Sample.id1
  = Service.notFound.
Proof.
  apply (deleted_task_is_gone Sample.env Sample.env Sample.store _ Sample.id1
           (Service.deleteTask Sample.env Sample.store Sample.id1).1);
    [reflexivity | reflexivity | decide_now | reflexivity | reflexivity].
Defined.

(** ** Repeating an update *)

Lemma applyUpdate_idempotent (u : Model.Update) (doc : Task) :
  Model.applyUpdate u (Model.applyUpdate u doc) = Model.applyUpdate u doc.
Proof.
  unfold Model.applyUpdate. simpl. f_equal.
  - by destruct (Model.u_title u) as [[] |].
  - by destruct (Model.u_description u) as [[] |].
  - by destruct (Model.u_status u) as [[] |].
  - by destruct (Model.u_dueDate u).
  - by destruct (Model.u_createdAt u).
Qed.

Lemma updateTask_200_reachable (env : Env) (store store' : list Task)
    (id : string) (body : gmap string JVal) (response : Response) :
  Service.updateTask env store id body = (response, store') →
  code response = 200%nat → fault env = None.
Proof.
  unfold Service.updateTask, Model.findByIdAndUpdate.
  destruct (castObjectId env id); [| intros [= <- <-]; discriminate].
  destruct (Model.castUpdate env body) as [u | e]; simpl;
    [| intros [= <- <-]; discriminate].
  destruct (fault env); [| done].
  destruct (Model.isEmptyUpdate u); [intros [= <- <-]; discriminate |].
  destruct (Model.updateValidators u); intros [= <- <-]; discriminate.
Qed.

(** X7.  An update whose body holds scalar fields (no nested value, hence
    no update operator) is idempotent: sending again the request that was
    answered 200 is answered with the same record and changes the store no
    further. *)
Theorem updateTask_idempotent (env : Env) (store store' : list Task)
    (id : string) (body : gmap string JVal) (response : Response) :
  Service.updateTask env store id body = (response, store') →
  code response = 200%nat →
  Service.updateTask env store' id body = (response, store').
Proof.
  intros Hupd Hcode.
  pose proof (updateTask_200_reachable _ _ _ _ _ _ Hupd Hcode) as Hfault.
  destruct (updateTask_200 _ _ _ _ _ _ Hupd Hcode) as (updated & -> & Hfind).
  apply findByIdAndUpdate_Some in Hfind
    as (oid & old & u & Hcast & Hu & Hval & Hold & Hcases).
  pose proof (lookup_Some _ _ _ Hold) as [Hid _].
  unfold Service.updateTask, Model.findByIdAndUpdate.
  rewrite Hcast, Hu. simpl.
  destruct Hcases as [(Hempty & -> & ->) | (Hempty & Hu_id & -> & ->)];
    rewrite Hempty.
  - by rewrite Hfault, Hold.
  - rewrite Hval, Hfault.
    rewrite (lookup_replace_eq _ _ old) by done.
    rewrite applyUpdate_idempotent.
    rewrite replace_same by (by apply (lookup_replace_eq _ _ old)).
    destruct Hu_id as [-> | ->]; [done |]. by rewrite bool_decide_true.
Qed.

Lemma updateTask_idempotent_witness :
  Service.updateTask Sample.env
    (Service.updateTask Sample.env Sample.store Sample.id1
       {[ "status" := JStr "In Progress" ]}).2
    Sample.id1 {[ "status" := JStr "In Progress" ]}
  = Service.updateTask Sample.env Sample.store Sample.id1
      {[ "status" := JStr "In Progress" ]}.
Proof.
  pose (r := Service.updateTask Sample.env Sample.store Sample.id1
               {[ "status" := JStr "In Progress" ]}).
  assert (H1 : Service.updateTask Sample.env Sample.store Sample.id1
                 {[ "status" := JStr "In Progress" ]} = (r.1, r.2))
    by reflexivity.
  assert (H2 : code r.1 = 200%nat) by reflexivity.
  exact (eq_trans (updateTask_idempotent _ _ _ _ _ _ H1 H2) (eq_sym H1)).
Defined.

(** ** The list route *)

Lemma filter_bool_sublist {A} (p : A → bool) (l : list A) :
  sublist (List.filter p l) l.
Proof.
  induction l as [| x l IH]; simpl; [done |].
  destruct (p x); [by apply sublist_skip | by apply sublist_cons].
Qed.

Lemma valid_status_one_line (t : Task) :
  Inv.validTask t → RegExp.LF ∉ Str.chars (status t).
Proof.
  intros (_ & _ & Hs). unfold Spec.statuses in Hs.
  repeat (apply elem_of_cons in Hs as [-> | Hs]; [decide_now |]).
  by apply elem_of_nil in Hs.
Qed.

(** X9.  Whatever the status parameter (inside the modelled patterns), with
    the store reachable the list route answers 200 with tasks of the store
    only, each at most as often as the store holds it, newest first; without
    a status, or with an empty one, it lists every task of the store. *)
Theorem getAllTasks_lists_the_store (env : Env) (store : list Task)
    (status : option string) (r : Response) :
  Service.getAllTasks env store status = Some r →
  fault env = None →
  ∃ l,
    r = {| code := 200; payload := BTasks l |}
    ∧ l ⊆+ store
    ∧ Spec.newestFirst l
    ∧ (status = None ∨ status = Some EmptyString → l ≡ₚ store).
Proof.
  unfold Service.getAllTasks, Model.find. intros Hget Hfault.
  rewrite Hfault in Hget.
  destruct status as [s |].
  - destruct (Str.is_empty s) eqn:Hs.
    + injection Hget as <-. exists (Model.sort_desc store).
      split; [done |]. split; [by rewrite sort_desc_Permutation |].
      split; [apply sort_desc_sorted |]. intros _. apply sort_desc_Permutation.
    + destruct (RegExp.compile _ _) as [re |]; [| done].
      injection Hget as <-. eexists. split; [done |].
      split; [| split; [apply sort_desc_sorted |]].
      * rewrite sort_desc_Permutation. apply sublist_submseteq.
        apply filter_bool_sublist.
      * intros [? | [= ->]]; [done |]. unfold Str.is_empty in Hs.
        by rewrite bool_decide_true in Hs.
  - injection Hget as <-. exists (Model.sort_desc store).
    split; [done |]. split; [by rewrite sort_desc_Permutation |].
    split; [apply sort_desc_sorted |]. intros _. apply sort_desc_Permutation.
Qed.

Lemma getAllTasks_lists_the_store_witness :
  ∃ l,
    {| code := 200; payload := BTasks [Sample.t1] |}
    = {| code := 200; payload := BTasks l |}
    ∧ l ⊆+ Sample.store.
Proof.
  destruct (getAllTasks_lists_the_store Sample.env Sample.store (Some "pend.*")
              {| code := 200; payload := BTasks [Sample.t1] |} eq_refl eq_refl)
    as (l & Hl & Hsub & _).
  exists l. auto.
Defined.

(** X10.  For a store of valid tasks and a non-empty status without
    metacharacters, the list route returns exactly the tasks whose status
    equals the parameter up to letter case, in the order of the unfiltered
    list. *)
Theorem getAllTasks_filter_exact (env : Env) (store : list Task) (S : string) :
  fault env = None →
  S ≠ EmptyString →
  Forall (fun c => RegExp.is_meta c = false) (Str.chars S) →
  Forall Inv.validTask store →
  ∃ all,
    Service.getAllTasks env store None
    = Some {| code := 200; payload := BTasks all |}
    ∧ Service.getAllTasks env store (Some S)
      = Some {| code := 200; payload := BTasks (Spec.withStatus S all) |}.
Proof.
  intros Hfault Hne Hplain Hvalid.
  destruct (getAllTasks_plain env store S Hfault Hne Hplain)
    as (all & Hall & _ & _ & Hfiltered & _).
  - eapply Forall_impl; [exact Hvalid |]. apply valid_status_one_line.
  - by exists all.
Qed.

Lemma getAllTasks_filter_exact_witness :
  ∃ all,
    Service.getAllTasks Sample.env Sample.store None
    = Some {| code := 200; payload := BTasks all |}
    ∧ Service.getAllTasks Sample.env Sample.store (Some "completed")
      = Some {| code := 200; payload := BTasks (Spec.withStatus "completed" all) |}.
Proof.
  apply (getAllTasks_filter_exact Sample.env Sample.store "completed");
    [reflexivity | discriminate | | exact valid_sample_store].
  repeat constructor.
Defined.

(** * Further properties of the client *)

(** ** What each handler writes *)

(** X11.  Create and delete are not optimistic: neither the synchronous part
    of [createTask] and [deleteTask] nor their continuation, on any outcome
    and in any state, changes the cached list or the filter. *)
Theorem create_and_delete_leave_the_cache (st st' : Client.State)
    (r : Client.FetchResult) (taskData : gmap string JVal) (id : string) :
  Client.tasks (Client.onSave (Client.App st) taskData st).1 = Client.tasks st
  ∧ Client.tasks
      (Client.resume (Client.onSave (Client.App st) taskData st).2 r st')
    = Client.tasks st'
  ∧ Client.filterStatus
      (Client.resume (Client.onSave (Client.App st) taskData st).2 r st')
    = Client.filterStatus st'
  ∧ Client.tasks (Client.onDelete (Client.App st) id st).1 = Client.tasks st
  ∧ Client.tasks (Client.resume (Client.onDelete (Client.App st) id st).2 r st')
    = Client.tasks st'
  ∧ Client.filterStatus
      (Client.resume (Client.onDelete (Client.App st) id st).2 r st')
    = Client.filterStatus st'.
Proof.
  split; [done |]. split; [| split; [| split; [done | split]]].
  - destruct r as [m | resp]; simpl; [done |].
    destruct (Client.ok resp); simpl; [done |]. by destruct (Client.json resp).
  - destruct r as [m | resp]; simpl; [done |].
    destruct (Client.ok resp); simpl; [done |]. by destruct (Client.json resp).
  - destruct r as [m | resp]; simpl; [done |].
    destruct (_ && _); [| done]. by destruct (payload resp).
  - destruct r as [m | resp]; simpl; [done |].
    destruct (_ && _); [| done]. by destruct (payload resp).
Qed.

(** X12.  The loading flag: [fetchTasks], [createTask] and [deleteTask] raise
    it before the request and their continuation lowers it on every outcome;
    [updateTaskStatus] never writes it. *)
Theorem loading_flag (st st' : Client.State) (r : Client.FetchResult)
    (taskData : gmap string JVal) (id newStatus : string) :
  (Client.loading (Client.fetchTasks st).1 = true
   ∧ Client.loading (Client.resume (Client.fetchTasks st).2 r st') = false)
  ∧ (Client.loading (Client.onSave (Client.App st) taskData st).1 = true
     ∧ Client.loading
         (Client.resume (Client.onSave (Client.App st) taskData st).2 r st')
       = false)
  ∧ (Client.loading (Client.onDelete (Client.App st) id st).1 = true
     ∧ Client.loading
         (Client.resume (Client.onDelete (Client.App st) id st).2 r st')
       = false)
  ∧ (Client.loading (Client.onUpdateStatus (Client.App st) id newStatus st).1
     = Client.loading st
     ∧ Client.loading
         (Client.resume
            (Client.onUpdateStatus (Client.App st) id newStatus st).2 r st')
       = Client.loading st').
Proof.
  repeat split.
  destruct r as [m | resp]; simpl; [done |].
  destruct (Client.ok resp); simpl; [done |]. by destruct (Client.json resp).
Qed.

(** X13.  The error banner: every handler clears it before its request, and
    after the continuation it is set exactly when the request failed: for a
    create or a status update, when there was no 2xx response; for a delete,
    when the response was neither 204 nor 404; for a fetch, when there was no
    2xx response or its body was empty. *)
Theorem error_banner (st : Client.State) (r : Client.FetchResult)
    (taskData : gmap string JVal) (id newStatus : string) :
  Client.error (Client.fetchTasks st).1 = None
  ∧ Client.error (Client.onSave (Client.App st) taskData st).1 = None
  ∧ Client.error (Client.onUpdateStatus (Client.App st) id newStatus st).1 = None
  ∧ Client.error (Client.onDelete (Client.App st) id st).1 = None
  ∧ bool_decide
      (is_Some (Client.error
                  (Client.resume (Client.onSave (Client.App st) taskData st).2 r
                     (Client.onSave (Client.App st) taskData st).1)))
    = negb (Spec.succeeded r)
  ∧ bool_decide
      (is_Some (Client.error
                  (Client.resume
                     (Client.onUpdateStatus (Client.App st) id newStatus st).2 r
                     (Client.onUpdateStatus (Client.App st) id newStatus st).1)))
    = negb (Spec.succeeded r)
  ∧ bool_decide
      (is_Some (Client.error
                  (Client.resume (Client.onDelete (Client.App st) id st).2 r
                     (Client.onDelete (Client.App st) id st).1)))
    = negb (Spec.deleteAccepted r)
  ∧ bool_decide
      (is_Some (Client.error
                  (Client.resume (Client.fetchTasks st).2 r
                     (Client.fetchTasks st).1)))
    = negb (Spec.succeeded r
            && match r with
               | Client.Received response =>
                   bool_decide (is_Some (Client.json response))
               | Client.Rejected _ => false
               end).
Proof.
  split; [done | split; [done | split; [done | split; [done |]]]].
  split; [| split; [| split]].
  - destruct r as [m | resp]; simpl; [done |].
    destruct (Client.ok resp); simpl; [done |]. by destruct (Client.json resp).
  - destruct r as [m | resp]; simpl; [done |].
    destruct (Client.ok resp); simpl; [done |]. by destruct (Client.json resp).
  - destruct r as [m | resp]; simpl; [done |].
    destruct (code resp =? 204)%nat; simpl; [done |].
    destruct (code resp =? 404)%nat; simpl; [done |].
    by destruct (payload resp).
  - destruct r as [m | resp]; simpl; [done |].
    destruct (Client.ok resp); simpl; [| done].
    by destruct (Client.json resp) as [[] |].
Qed.

(** X14.  The toast: the continuation of a create, a status update or a
    delete always shows a notification.  Its type is "success" or "info"
    after a create or an update that succeeded and "error" after one that
    failed; after a delete it is "error" on every outcome, with the message
    "Task deleted successfully." when the response was 204 or 404.  Each of
    these types has its own entry in the style map of the toast. *)
Theorem toast_of_each_outcome (st st' : Client.State) (r : Client.FetchResult)
    (taskData : gmap string JVal) (id newStatus : string) :
  (∃ n,
     Client.notification
       (Client.resume (Client.onSave (Client.App st) taskData st).2 r st')
     = Some n
     ∧ Client.type n = (if Spec.succeeded r then "success" else "error")
     ∧ Toast.styleMap !! Client.type n = Some (Toast.style n))
  ∧ (∃ n,
       Client.notification
         (Client.resume
            (Client.onUpdateStatus (Client.App st) id newStatus st).2 r st')
       = Some n
       ∧ Client.type n = (if Spec.succeeded r then "info" else "error")
       ∧ Toast.styleMap !! Client.type n = Some (Toast.style n))
  ∧ (∃ n,
       Client.notification
         (Client.resume (Client.onDelete (Client.App st) id st).2 r st')
       = Some n
       ∧ Client.type n = "error"
       ∧ Client.message n
         = (if Spec.deleteAccepted r then "Task deleted successfully."
            else "Error deleting task. Check console.")
       ∧ Toast.styleMap !! Client.type n = Some (Toast.style n)).
Proof.
  split; [| split].
  - destruct r as [m | resp]; simpl; [by eexists |].
    destruct (Client.ok resp); simpl; [by eexists |].
    destruct (Client.json resp); by eexists.
  - destruct r as [m | resp]; simpl; [by eexists |].
    destruct (Client.ok resp); simpl; [by eexists |].
    destruct (Client.json resp); by eexists.
  - destruct r as [m | resp]; simpl; [by eexists |].
    destruct (code resp =? 204)%nat; simpl; [by eexists |].
    destruct (code resp =? 404)%nat; simpl; [by eexists |].
    destruct (payload resp); by eexists.
Qed.

Lemma nextStatus_valid (s : string) : Client.nextStatus s ∈ Spec.statuses.
Proof.
  unfold Client.nextStatus. repeat case_bool_decide; decide_now.
Qed.

(** X15.  The status button always asks for a change to one of the three
    statuses: whatever the status of the task, also one outside the
    enumeration, [nextStatus] is one of the three and differs from it. *)
Theorem nextStatus_valid_and_different (s : string) :
  Client.nextStatus s ∈ Spec.statuses ∧ Client.nextStatus s ≠ s.
Proof.
  split; [apply nextStatus_valid |].
  unfold Client.nextStatus. repeat case_bool_decide; congruence.
Qed.

(** X16.  A failed status update writes back the list captured at the click
    even when the cache has changed since (a change made in between is lost
    from the cache), and it always schedules the fetch that repairs it. *)
Theorem stale_rollback_and_refetch (st st' : Client.State)
    (id newStatus : string) (r : Client.FetchResult) :
  Spec.succeeded r = false →
  Client.tasks
    (Client.resume (Client.onUpdateStatus (Client.App st) id newStatus st).2
       r st')
  = Client.tasks st
  ∧ Client.effectRuns st'
      (Client.resume (Client.onUpdateStatus (Client.App st) id newStatus st).2
         r st')
    = true.
Proof.
  intros Hfail. split.
  - exact (rollback_restores_snapshot (Client.tasks st) id newStatus r st st' Hfail).
  - apply effectRuns_bumped.
    destruct (succeeded_false_cases r Hfail) as [[m ->] | (resp & -> & Hok)];
      simpl; [lia |].
    rewrite Hok. simpl. destruct (Client.json resp); simpl; lia.
Qed.

Lemma stale_rollback_and_refetch_witness :
  Client.tasks
    (Client.resume
       (Client.onUpdateStatus (Client.App Sample.state) Sample.id1
          "In Progress" Sample.state).2
       (Client.Rejected "Failed to fetch")
       (Client.setTasks (fun _ => []) Sample.state))
  = Client.tasks Sample.state.
Proof.
  exact (proj1 (stale_rollback_and_refetch Sample.state
                  (Client.setTasks (fun _ => []) Sample.state) Sample.id1
                  "In Progress" (Client.Rejected "Failed to fetch") eq_refl)).
Defined.

(** ** Trimming *)

Section Strip.
Variable w2 : ascii → ascii → bool.
Variable w3 : ascii → ascii → ascii → bool.

Lemma strip_fix (l : list ascii) :
  Str.white_head w2 w3 l = false → Str.strip w2 w3 l = l.
Proof.
  destruct l as [| a [| b [| c l]]]; simpl; [done | | |].
  - by destruct (Str.is_white a).
  - by destruct (Str.is_white a), (w2 a b).
  - by destruct (Str.is_white a), (w2 a b), (w3 a b c).
Qed.

Lemma strip_cases (l : list ascii) :
  Str.strip w2 w3 l = l ∧ Str.white_head w2 w3 l = false
  ∨ ∃ w l', w ≠ [] ∧ l = (w ++ l')%list ∧ Str.strip w2 w3 l = Str.strip w2 w3 l'.
Proof.
  destruct (Str.white_head w2 w3 l) eqn:Hw;
    [right | left; split; [by apply strip_fix | done]].
  destruct l as [| a [| b [| c l]]]; simpl in *; [done | | |].
  - destruct (Str.is_white a); [| done]. by exists [a], [].
  - destruct (Str.is_white a); [by exists [a], [b] |].
    destruct (w2 a b); [by exists [a; b], [] | done].
  - destruct (Str.is_white a); [by exists [a], (b :: c :: l) |].
    destruct (w2 a b); [by exists [a; b], (c :: l) |].
    destruct (w3 a b c); [by exists [a; b; c], l | done].
Qed.

Lemma strip_spec (l : list ascii) :
  Str.white_head w2 w3 (Str.strip w2 w3 l) = false
  ∧ ∃ w, l = (w ++ Str.strip w2 w3 l)%list.
Proof.
  remember (List.length l) as n eqn:Hn. revert l Hn.
  induction n as [n IH] using lt_wf_ind. intros l ->.
  destruct (strip_cases l) as [[Hfix Hw] | (w & l' & Hne & -> & Hstrip)].
  - rewrite Hfix. split; [done | by exists []].
  - rewrite Hstrip.
    destruct (IH (List.length l')) with (l := l') as [Hhead [w' Hw']]; [| done |].
    + rewrite length_app. destruct w; [done | simpl; lia].
    + split; [done |]. exists (w ++ w')%list. rewrite <- app_assoc. by f_equal.
Qed.

Lemma white_head_prefix (l q : list ascii) :
  Str.white_head w2 w3 l = true → Str.white_head w2 w3 (l ++ q) = true.
Proof.
  destruct l as [| a [| b [| c l]]]; simpl; [done | | |].
  - destruct (Str.is_white a); done.
  - destruct (Str.is_white a), (w2 a b); done.
  - done.
Qed.

End Strip.

Lemma chars_of_chars (l : list ascii) : Str.chars (Str.of_chars l) = l.
Proof. apply String.list_ascii_of_string_of_list_ascii. Qed.

Lemma of_chars_chars (s : string) : Str.of_chars (Str.chars s) = s.
Proof. apply String.string_of_list_ascii_of_string. Qed.

(** The characters of a trimmed string: no white space at either end. *)
Lemma trim_ends (s : string) :
  let l := Str.chars (Str.trim s) in
  Str.trim_start l = l ∧ Str.trim_start_rev (rev l) = rev l.
Proof.
  unfold Str.trim. rewrite chars_of_chars. simpl.
  set (l1 := Str.trim_start (Str.chars s)).
  destruct (strip_spec Str.is_white2 Str.is_white3 (Str.chars s)) as [Hhead _].
  fold (Str.trim_start (Str.chars s)) in Hhead. fold l1 in Hhead.
  split.
  - apply strip_fix.
    destruct (strip_spec (fun b a => Str.is_white2 a b)
                (fun c b a => Str.is_white3 a b c) (rev l1)) as [_ [w Hw]].
    fold (Str.trim_start_rev (rev l1)) in Hw.
    apply (f_equal (@rev ascii)) in Hw. rewrite rev_involutive, rev_app_distr in Hw.
    destruct (Str.white_head _ _ (rev (Str.trim_start_rev (rev l1)))) eqn:Hl2;
      [| done].
    apply (white_head_prefix _ _ _ (rev w)) in Hl2. congruence.
  - rewrite rev_involutive. apply strip_fix.
    apply (strip_spec (fun b a => Str.is_white2 a b)
             (fun c b a => Str.is_white3 a b c) (rev l1)).
Qed.

Lemma trim_idempotent (s : string) : Str.trim (Str.trim s) = Str.trim s.
Proof.
  destruct (trim_ends s) as [H1 H2].
  unfold Str.trim at 1. rewrite H1, H2, rev_involutive.
  apply of_chars_chars.
Qed.

(** ** The form and the create route *)

Lemma handleSubmit_lookups (toISOString : string → string) (f : TaskForm.State) :
  let taskData := (TaskForm.handleSubmit toISOString f).1 in
  taskData !! "title" = Some (JStr (Str.trim (TaskForm.title f)))
  ∧ taskData !! "description" = Some (JStr (Str.trim (TaskForm.description f)))
  ∧ taskData !! "dueDate"
    = Some (if Str.is_empty (TaskForm.dueDate f) then JNull
            else JStr (toISOString (TaskForm.dueDate f)))
  ∧ taskData !! "status" = None
  ∧ taskData !! "createdAt" = None
  ∧ taskData !! "_id" = None.
Proof. simpl. repeat split; by simplify_map_eq. Qed.

(** A body with a title and a description that are not empty, a due date
    that casts, and neither [status] nor [createdAt] nor [_id]. *)
Lemma createTask_accepts (env : Env) (store : list Task)
    (body : gmap string JVal) (t d : string) (v : JVal) (due : option Z) :
  body !! "title" = Some (JStr t) → Str.trim t ≠ EmptyString →
  body !! "description" = Some (JStr d) → d ≠ EmptyString →
  body !! "dueDate" = Some v → Schema.castDate env v = Some due →
  body !! "status" = None → body !! "createdAt" = None → body !! "_id" = None →
  fault env = None → newObjectId env ∉ Model.ids store →
  Service.createTask env store body
  = ({| code := 201;
        payload :=
          BTask {| _id := newObjectId env; title := Str.trim t;
                   description := d; status := "Pending"; dueDate := due;
                   createdAt := Some (now env) |} |},
     (store ++ [{| _id := newObjectId env; title := Str.trim t;
                   description := d; status := "Pending"; dueDate := due;
                   createdAt := Some (now env) |}])%list).
Proof.
  intros Ht Htne Hd Hdne Hv Hdue Hs Hc Hi Hfault Hfresh.
  pose proof (new_fields env body) as (Nt & Nd & Ns & Ni & Ndue & Nc & Ne).
  rewrite Ht, Hd, Hs, Hc, Hi, Hv in *. simpl in *. rewrite Hdue in *. simpl in *.
  unfold Service.createTask, Model.save, Model.validate.
  rewrite Nt, Nd, Ns, Ni, Ndue, Nc, Ne, Hfault.
  unfold Schema.validateString, Str.is_empty. simpl.
  rewrite !bool_decide_false by done. done.
Qed.

(** X17.  The guard of the form and the validators of the schema agree.  A
    form whose submit button is disabled (title or description blank) would
    be refused by the create route with a validation error.  A form whose
    button is enabled is accepted (the store reachable, the generated id new,
    the due date sent castable): the task stored has the trimmed title and
    description of the form, the status Pending and the current time as
    creation date.  Submitting resets the form. *)
Theorem form_guard_agrees_with_validation (toISOString : string → string)
    (env : Env) (store : list Task) (f : TaskForm.State) :
  (TaskForm.handleSubmit toISOString f).2 = TaskForm.initial
  ∧ (TaskForm.submitDisabled f = true →
     ∃ errors,
       Service.createTask env store (TaskForm.handleSubmit toISOString f).1
       = (Service.failure 400 "Failed to create task" (ValidationError errors),
          store))
  ∧ (TaskForm.submitDisabled f = false →
     ∀ due,
       Schema.castDate env
         (if Str.is_empty (TaskForm.dueDate f) then JNull
          else JStr (toISOString (TaskForm.dueDate f))) = Some due →
       fault env = None →
       newObjectId env ∉ Model.ids store →
       ∃ doc,
         Service.createTask env store (TaskForm.handleSubmit toISOString f).1
         = ({| code := 201; payload := BTask doc |}, (store ++ [doc])%list)
         ∧ title doc = Str.trim (TaskForm.title f)
         ∧ description doc = Str.trim (TaskForm.description f)
         ∧ status doc = "Pending"
         ∧ dueDate doc = due
         ∧ createdAt doc = Some (now env)).
Proof.
  pose proof (handleSubmit_lookups toISOString f) as (Lt & Ld & Ldue & Ls & Lc & Li).
  split; [done | split].
  - intros Hdisabled. unfold Service.createTask, Model.save.
    destruct (Model.validate (Model.new env _)) eqn:Hval; [| by eauto].
    exfalso.
    pose proof (new_fields env (TaskForm.handleSubmit toISOString f).1)
      as (Nt & Nd & _).
    apply validate_nil in Hval as ((t & Ht & Htne) & (d & Hd & Hdne) & _).
    assert (Nt' : Model.d_title (Model.new env (TaskForm.handleSubmit toISOString f).1)
                  = Some (Str.trim (Str.trim (TaskForm.title f))))
      by (rewrite Nt, Lt; reflexivity).
    assert (Nd' : Model.d_description
                    (Model.new env (TaskForm.handleSubmit toISOString f).1)
                  = Some (Str.trim (TaskForm.description f)))
      by (rewrite Nd, Ld; reflexivity).
    rewrite trim_idempotent in Nt'.
    unfold TaskForm.submitDisabled, Str.is_empty in Hdisabled.
    apply orb_true_iff in Hdisabled as [Hb | Hb];
      apply bool_decide_eq_true in Hb; congruence.
  - intros Henabled due Hdue Hfault Hfresh.
    unfold TaskForm.submitDisabled, Str.is_empty in Henabled.
    apply orb_false_iff in Henabled as [Ht Hd].
    apply bool_decide_eq_false in Ht, Hd.
    eexists. split.
    + eapply createTask_accepts; try done. by rewrite trim_idempotent.
    + simpl. by rewrite trim_idempotent.
Qed.

Lemma form_guard_agrees_with_validation_witness :
  ∃ doc,
    Service.createTask Sample.env Sample.store
      (TaskForm.handleSubmit (fun d => d +:+ "T00:00:00.000Z")
         {| TaskForm.title := "  Write spec ";
            TaskForm.description := "draft v1";
            TaskForm.dueDate := EmptyString |}).1
    = ({| code := 201; payload := BTask doc |}, (Sample.store ++ [doc])%list)
    ∧ title doc = "Write spec".
Proof.
  destruct (form_guard_agrees_with_validation (fun d => d +:+ "T00:00:00.000Z")
              Sample.env Sample.store
              {| TaskForm.title := "  Write spec ";
                 TaskForm.description := "draft v1";
                 TaskForm.dueDate := EmptyString |}) as (_ & _ & H).
  destruct (H eq_refl None eq_refl eq_refl) as (doc & H1 & H2 & _);
    [decide_now |].
  exists doc. split; [exact H1 | exact H2].
Defined.

(** ** The filter dropdown, the fetch and the list route *)

Lemma fetch_round_trip (env : Env) (store : list Task) (st : Client.State)
    (l : list Task) :
  Service.getAllTasks env store
    (if bool_decide (Client.filterStatus st ≠ "All")
     then Some (Client.filterStatus st) else None)
  = Some {| code := 200; payload := BTasks l |} →
  ∃ st2,
    Client.roundTrip env store (Client.fetchTasks st) = Some (st2, store)
    ∧ Client.tasks st2 = l
    ∧ Client.loading st2 = false
    ∧ Client.error st2 = None
    ∧ Client.filterStatus st2 = Client.filterStatus st.
Proof.
  intros Hget. unfold Client.roundTrip. simpl. rewrite Hget. simpl.
  eexists. by repeat split.
Qed.

Lemma valid_status_filter (F : string) (l : list Task) :
  F ∈ Spec.statuses → Forall Inv.validTask l →
  Spec.withStatus F l = List.filter (fun t => bool_decide (status t = F)) l.
Proof.
  intros HF. induction 1 as [| t l (_ & _ & Ht) Hl IH]; [done |].
  unfold Spec.withStatus in *. simpl. rewrite IH.
  replace (Str.equal_ci F (status t)) with (bool_decide (status t = F)); [done |].
  unfold Spec.statuses in HF, Ht.
  repeat (apply elem_of_cons in HF as [-> | HF]);
    try (by apply elem_of_nil in HF);
    repeat (apply elem_of_cons in Ht as [-> | Ht]);
    try (by apply elem_of_nil in Ht); reflexivity.
Qed.

Lemma statuses_plain (F : string) :
  F ∈ Spec.statuses →
  F ≠ EmptyString ∧ F ≠ "All"
  ∧ Forall (fun c => RegExp.is_meta c = false) (Str.chars F).
Proof.
  intros HF. unfold Spec.statuses in HF.
  repeat (apply elem_of_cons in HF as [-> | HF];
          [by repeat split; repeat constructor |]).
  by apply elem_of_nil in HF.
Qed.

(** X18.  Choosing an option of the filter dropdown makes the fetching effect
    run when the option differs from the current one.  When the service
    answers that fetch (the store reachable and holding valid tasks), the
    cache becomes: for "All", every task of the store, newest first; for one
    of the three statuses, exactly the tasks with that status, in that
    order.  Loading is off and no error is shown. *)
Theorem selected_filter_shows_matching (env : Env) (store : list Task)
    (st : Client.State) (F : string) :
  F ∈ Filter.options →
  Forall Inv.validTask store →
  fault env = None →
  Client.effectRuns st (Filter.select F st)
  = negb (bool_decide (Client.filterStatus st = F))
  ∧ ∃ st2,
      Client.roundTrip env store (Client.fetchTasks (Filter.select F st))
      = Some (st2, store)
      ∧ Client.tasks st2
        = (if bool_decide (F = "All") then Model.sort_desc store
           else List.filter (fun t => bool_decide (status t = F))
                  (Model.sort_desc store))
      ∧ Spec.newestFirst (Client.tasks st2)
      ∧ Client.loading st2 = false
      ∧ Client.error st2 = None.
Proof.
  intros HF Hvalid Hfault. split.
  - unfold Client.effectRuns, Filter.select. simpl. f_equal.
    apply bool_decide_ext. split; [by intros [? _] | by intros ?].
  - unfold Filter.options in HF. apply elem_of_cons in HF as [-> | HF].
    + destruct (fetch_round_trip env store (Filter.select "All" st)
                  (Model.sort_desc store)) as (st2 & Hrt & Ht & Hl & He & _).
      { simpl. unfold Service.getAllTasks, Model.find. by rewrite Hfault. }
      exists st2. rewrite Ht. split; [done |]. split; [done |].
      split; [apply sort_desc_sorted | done].
    + fold Spec.statuses in HF.
      destruct (statuses_plain F HF) as (Hne & Hall & Hplain).
      destruct (getAllTasks_plain env store F Hfault Hne Hplain)
        as (all & Hget & _ & _ & Hfiltered & Hsorted).
      { eapply Forall_impl; [exact Hvalid |]. apply valid_status_one_line. }
      assert (all = Model.sort_desc store) as ->.
      { revert Hget. unfold Service.getAllTasks, Model.find. rewrite Hfault.
        by intros [= <-]. }
      destruct (fetch_round_trip env store (Filter.select F st)
                  (Spec.withStatus F (Model.sort_desc store)))
        as (st2 & Hrt & Ht & Hl & He & _).
      { simpl. by rewrite bool_decide_true. }
      exists st2. rewrite Ht. rewrite bool_decide_false by done.
      split; [done |]. split; [| done].
      apply valid_status_filter; [done |].
      by rewrite sort_desc_Permutation.
Qed.

Lemma selected_filter_shows_matching_witness :
  ∃ st2,
    Client.roundTrip Sample.env Sample.store
      (Client.fetchTasks (Filter.select "Completed" Sample.state))
    = Some (st2, Sample.store)
    ∧ Client.tasks st2 = [Sample.t2].
Proof.
  destruct (selected_filter_shows_matching Sample.env Sample.store Sample.state
              "Completed") as (_ & st2 & H1 & H2 & _);
    [decide_now | exact valid_sample_store | reflexivity |].
  exists st2. split; [exact H1 | exact H2].
Defined.

(** ** The overdue mark *)

Lemma startOfDayUTC_monotone : Inv.monotone Inv.startOfDayUTC.
Proof.
  intros a b Hab. unfold Inv.startOfDayUTC.
  apply Z.mul_le_mono_nonneg_l; [lia |]. apply Z.div_le_mono; lia.
Qed.

(** X19.  The overdue mark raises no false alarm: whenever a card is marked
    overdue, the task has a due date, that instant lies before the present
    one, and the task is not Completed (local midnights being monotone in
    time). *)
Theorem isOverdue_sound (startOfLocalDay : Z → Z) (today : Z) (task : Task) :
  Inv.monotone startOfLocalDay →
  TaskItem.isOverdue startOfLocalDay today task = true →
  ∃ due,
    dueDate task = Some due ∧ (due < today)%Z ∧ status task ≠ "Completed".
Proof.
  intros Hmono. unfold TaskItem.isOverdue, TaskItem.isCompleted.
  destruct (dueDate task) as [due |]; [| done].
  case_bool_decide as Hdone; [done |]. intros Hlt. apply Z.ltb_lt in Hlt.
  exists due. split; [done |]. split; [| done].
  destruct (decide (due < today)%Z) as [| Hge]; [done |].
  assert (today <= due)%Z as Hle by lia. apply Hmono in Hle. lia.
Qed.

Lemma isOverdue_sound_witness :
  ∃ due,
    dueDate Sample.t2 = Some due ∧ (due < 1700000000000)%Z
    ∧ status (Client.withStatus Sample.t2 "Pending") ≠ "Completed".
Proof.
  destruct (isOverdue_sound Inv.startOfDayUTC 1700000000000
              (Client.withStatus Sample.t2 "Pending")
              startOfDayUTC_monotone eq_refl) as (due & H1 & H2 & H3).
  exists due. auto.
Defined.

(** ** A confirmed status change and the cache *)

Lemma lookup_elem_NoDup (t : Task) (store : list Task) :
  NoDup (Model.ids store) → t ∈ store → Model.lookup (_id t) store = Some t.
Proof.
  induction store as [| d store IH]; intros Hnd Hin; [by apply elem_of_nil in Hin |].
  unfold Model.ids in Hnd. simpl in Hnd. apply NoDup_cons in Hnd as [Hd Hnd].
  rewrite lookup_cons. apply elem_of_cons in Hin as [-> | Hin].
  - by rewrite bool_decide_true.
  - rewrite bool_decide_false; [by apply IH |].
    intros Heq. apply Hd. rewrite Heq. apply list_elem_of_fmap. by exists t.
Qed.

(** With distinct ids, replacing the record of an id is a map over the store. *)
Lemma replace_as_map (id s : string) (store : list Task) (old : Task) :
  NoDup (Model.ids store) →
  Model.lookup id store = Some old →
  Model.replace (Client.withStatus old s) id store
  = (fun t => if bool_decide (_id t = id) then Client.withStatus t s else t)
      <$> store.
Proof.
  induction store as [| d store IH]; [done |]. intros Hnd.
  unfold Model.ids in Hnd. simpl in Hnd. apply NoDup_cons in Hnd as [Hd Hnd].
  rewrite lookup_cons. simpl. case_bool_decide as Hid.
  - intros [= ->]. f_equal. clear IH.
    induction store as [| x l IHl]; [done |]. simpl in *.
    apply not_elem_of_cons in Hd as [Hx Hd]. apply NoDup_cons in Hnd as [_ Hnd].
    rewrite bool_decide_false by congruence. f_equal. by apply IHl.
  - intros Hl. f_equal. by apply IH.
Qed.

Lemma insert_desc_fmap (f : Task → Task) (x : Task) (l : list Task) :
  (∀ t, createdAt (f t) = createdAt t) →
  Model.insert_desc (f x) (f <$> l) = f <$> Model.insert_desc x l.
Proof.
  intros Hf. induction l as [| y l IH]; [done |].
  simpl. rewrite !Hf. destruct (Model.date_le _ _); [done |].
  simpl. f_equal. exact IH.
Qed.

Lemma sort_desc_fmap (f : Task → Task) (l : list Task) :
  (∀ t, createdAt (f t) = createdAt t) →
  Model.sort_desc (f <$> l) = f <$> Model.sort_desc l.
Proof.
  intros Hf. induction l as [| x l IH]; [done |].
  unfold Model.sort_desc in *. simpl.
  etransitivity; [| by apply insert_desc_fmap]. f_equal. exact IH.
Qed.

Lemma status_update_passes (s : string) :
  s ∈ Spec.statuses →
  Model.updateValidators (Model.mkUpdate None None None (Some (Some s)) None None)
  = [].
Proof.
  intros Hs. unfold Spec.statuses in Hs.
  repeat (apply elem_of_cons in Hs as [-> | Hs]; [reflexivity |]).
  by apply elem_of_nil in Hs.
Qed.

(** The click on the status button of a task that the store holds, answered
    by the service. *)
Lemma click_round_trip (env : Env) (store : list Task) (st : Client.State)
    (task old : Task) :
  castObjectId env (_id task) = Some (_id task) →
  fault env = None →
  Model.lookup (_id task) store = Some old →
  let next := Client.nextStatus (status task) in
  let advance t :=
    if bool_decide (_id t = _id task) then Client.withStatus t next else t in
  ∃ st',
    Client.roundTrip env store (TaskItem.onClickStatus (Client.App st) task st)
    = Some (st', Model.replace (Client.withStatus old next) (_id task) store)
    ∧ Client.tasks st' = advance <$> Client.tasks st
    ∧ Client.error st' = None
    ∧ Client.effectRuns st st' = false.
Proof.
  intros Hcast Hfault Hold next advance.
  unfold Client.roundTrip, TaskItem.onClickStatus. simpl.
  unfold Service.updateTask, Model.findByIdAndUpdate.
  rewrite Hcast, castUpdate_status_only. simpl.
  rewrite (status_update_passes _ (nextStatus_valid (status task))).
  rewrite Hfault, Hold. simpl. eexists. split; [reflexivity |].
  split; [done |]. split; [done |]. by apply effectRuns_same.
Qed.

(** X20.  Why a confirmed status change needs no fetch.  If the cache holds
    what the list route returns without a filter (the ids of the store being
    distinct), then after a click on the status button of one of its tasks,
    answered by the service, the cache again holds what the list route would
    return, the store holds the task with its next status, no error is shown
    and no fetch is scheduled. *)
Theorem confirmed_advance_keeps_cache_current (env : Env) (store : list Task)
    (st : Client.State) (task : Task) :
  NoDup (Model.ids store) →
  Client.tasks st = Model.sort_desc store →
  task ∈ Client.tasks st →
  castObjectId env (_id task) = Some (_id task) →
  fault env = None →
  ∃ st' store',
    Client.roundTrip env store (TaskItem.onClickStatus (Client.App st) task st)
    = Some (st', store')
    ∧ Client.tasks st' = Model.sort_desc store'
    ∧ Model.lookup (_id task) store'
      = Some (Client.withStatus task (Client.nextStatus (status task)))
    ∧ Client.error st' = None
    ∧ Client.effectRuns st st' = false.
Proof.
  intros Hnd Hsync Hin Hcast Hfault.
  assert (Hold : Model.lookup (_id task) store = Some task).
  { apply lookup_elem_NoDup; [done |]. by rewrite Hsync, sort_desc_elem in Hin. }
  destruct (click_round_trip env store st task task Hcast Hfault Hold)
    as (st' & Hrt & Htasks & Herr & Heff).
  exists st', (Model.replace
                 (Client.withStatus task (Client.nextStatus (status task)))
                 (_id task) store).
  split; [done |]. split; [| split; [| done]].
  - rewrite Htasks, Hsync, replace_as_map by done.
    symmetry. apply sort_desc_fmap. intros t. by case_bool_decide.
  - by apply (lookup_replace_eq _ _ task).
Qed.

Lemma confirmed_advance_keeps_cache_current_witness :
  ∃ st' store',
    Client.roundTrip Sample.env Sample.store
      (TaskItem.onClickStatus (Client.App Sample.state) Sample.t1 Sample.state)
    = Some (st', store')
    ∧ Client.tasks st' = Model.sort_desc store'.
Proof.
  destruct (confirmed_advance_keeps_cache_current Sample.env Sample.store
              Sample.state Sample.t1) as (st' & store' & H1 & H2 & _);
    [decide_now | reflexivity | decide_now | reflexivity | reflexivity |].
  exists st', store'. split; [exact H1 | exact H2].
Defined.

(** X21.  Under a status filter the same click leaves the cache stale.  If
    the cache holds what the list route returns for one of the three statuses
    (the store holding valid tasks with distinct ids), then after a confirmed
    click on the status button of one of its tasks the cache still shows that
    task, with its next status, although the list route would no longer list
    it for this filter; and no fetch is scheduled. *)
Theorem confirmed_advance_under_filter_is_stale (env : Env) (store : list Task)
    (st : Client.State) (F : string) (task : Task) :
  F ∈ Spec.statuses →
  NoDup (Model.ids store) →
  Forall Inv.validTask store →
  Client.tasks st = Spec.withStatus F (Model.sort_desc store) →
  task ∈ Client.tasks st →
  castObjectId env (_id task) = Some (_id task) →
  fault env = None →
  let advanced := Client.withStatus task (Client.nextStatus (status task)) in
  ∃ st' store',
    Client.roundTrip env store (TaskItem.onClickStatus (Client.App st) task st)
    = Some (st', store')
    ∧ advanced ∈ Client.tasks st'
    ∧ (advanced ∉ Spec.withStatus F (Model.sort_desc store'))
    ∧ Client.effectRuns st st' = false.
Proof.
  intros HF Hnd Hvalid Hsync Hin Hcast Hfault advanced.
  assert (Hvs : Forall Inv.validTask (Model.sort_desc store))
    by (by rewrite sort_desc_Permutation).
  rewrite Hsync, valid_status_filter in Hin by done.
  apply list_elem_of_In, filter_In in Hin as [Hin Hst].
  apply list_elem_of_In in Hin. apply (proj1 (sort_desc_elem _ _)) in Hin.
  apply bool_decide_eq_true in Hst.
  pose proof (lookup_elem_NoDup task store Hnd Hin) as Hold.
  destruct (click_round_trip env store st task task Hcast Hfault Hold)
    as (st' & Hrt & Htasks & Herr & Heff).
  eexists st', _. split; [exact Hrt |]. split; [| split; [| done]].
  - rewrite Htasks. apply list_elem_of_fmap. exists task. split.
    + by rewrite bool_decide_true.
    + rewrite Hsync, valid_status_filter by done.
      apply list_elem_of_In, filter_In. split.
      * apply list_elem_of_In. by apply sort_desc_elem.
      * by apply bool_decide_eq_true.
  - unfold Spec.withStatus. intros Habs.
    apply list_elem_of_In, filter_In in Habs as [_ Hci]. subst advanced.
    simpl in Hci. rewrite Hst in Hci. clear -HF Hci.
    unfold Spec.statuses in HF.
    repeat (apply elem_of_cons in HF as [-> | HF]; [by vm_compute in Hci |]).
    by apply elem_of_nil in HF.
Qed.

Lemma confirmed_advance_under_filter_is_stale_witness :
  ∃ st' store',
    Client.roundTrip Sample.env Sample.store
      (TaskItem.onClickStatus
         (Client.App (Client.setTasks (fun _ => [Sample.t1]) Sample.state))
         Sample.t1 (Client.setTasks (fun _ => [Sample.t1]) Sample.state))
    = Some (st', store')
    ∧ Client.withStatus Sample.t1 "In Progress" ∈ Client.tasks st'
    ∧ Client.withStatus Sample.t1 "In Progress"
      ∉ Spec.withStatus "Pending" (Model.sort_desc store').
Proof.
  destruct (confirmed_advance_under_filter_is_stale Sample.env Sample.store
              (Client.setTasks (fun _ => [Sample.t1]) Sample.state)
              "Pending" Sample.t1) as (st' & store' & H1 & H2 & H3 & _);
    [decide_now | decide_now | exact valid_sample_store | reflexivity
    | decide_now | reflexivity | reflexivity |].
  exists st', store'. split; [exact H1 | split; [exact H2 | exact H3]].
Defined.

(** ** Create, then delete *)

Lemma remove_app_new (doc : Task) (store : list Task) :
  _id doc ∉ Model.ids store →
  Model.remove (_id doc) (store ++ [doc]) = store.
Proof.
  induction store as [| d store IH]; intros Hfresh.
  - simpl. by rewrite bool_decide_true.
  - unfold Model.ids in Hfresh. simpl in Hfresh.
    apply not_elem_of_cons in Hfresh as [Hne Hfresh].
    change ((d :: store) ++ [doc])%list with (d :: (store ++ [doc]))%list.
    simpl. rewrite bool_decide_false by congruence. f_equal. by apply IH.
Qed.

(** X22.  Deleting, by the id of the record returned, the task a create has
    just stored and answered with its id (the body not setting [_id] to null)
    is answered 204 and gives back the store as it was before the create. *)
Theorem delete_undoes_create (env env' : Env) (store store' : list Task)
    (body : gmap string JVal) (doc : Task) :
  Service.createTask env store body
  = ({| code := 201; payload := BTask doc |}, store') →
  castObjectId env' (_id doc) = Some (_id doc) →
  fault env' = None →
  Service.deleteTask env' store' (_id doc)
  = ({| code := 204; payload := BEmpty |}, store).
Proof.
  intros Hcreate Hcast Hfault.
  destruct (createTask_cases _ _ _ _ _ Hcreate)
    as [[Hcode _] | (doc' & [[= <-] | [=]] & -> & Hfresh & _)]; [done |].
  unfold Service.deleteTask, Model.findByIdAndDelete.
  rewrite Hcast, Hfault, lookup_app_new by done.
  by rewrite remove_app_new.
Qed.

Lemma delete_undoes_create_witness :
  Service.deleteTask Sample.env
    (Service.createTask Sample.env Sample.store Sample.plainBody).2 Sample.id3
  = ({| code := 204; payload := BEmpty |}, Sample.store).
Proof.
  apply (delete_undoes_create Sample.env Sample.env Sample.store
           (Service.createTask Sample.env Sample.store Sample.plainBody).2
           Sample.plainBody
           {| _id := Sample.id3; title := "Write spec";
              description := "draft v1"; status := "Pending";
              dueDate := None; createdAt := Some 1700000000000 |});
    reflexivity.
Defined.

(** ** A status that is a pattern *)

Lemma match_any_line (k : list ascii → bool) (s : list ascii) :
  k [] = true → RegExp.LF ∉ s →
  RegExp.match_many true RegExp.AnyChar k s = true.
Proof.
  intros Hk. induction s as [| c s IH]; intros Hs; [done |].
  apply not_elem_of_cons in Hs as [Hc Hs]. simpl.
  rewrite IH by done. unfold Str.char_eqb.
  rewrite bool_decide_false by congruence. done.
Qed.

Lemma filter_bool_all {A} (p : A → bool) (l : list A) :
  Forall (fun x => p x = true) l → List.filter p l = l.
Proof.
  induction 1 as [| x l Hx Hl IH]; simpl; [done |]. by rewrite Hx, IH.
Qed.

(** X23.  The status parameter is read as a pattern: on every store of valid
    tasks, asking for the status [.*] gives the answer of the unfiltered
    list, all tasks instead of none. *)
Theorem status_dot_star_lists_everything (env : Env) (store : list Task) :
  Forall Inv.validTask store →
  Service.getAllTasks env store (Some ".*")
  = Service.getAllTasks env store None
  ∧ Spec.withStatus ".*" store = [].
Proof.
  intros Hvalid. split.
  - unfold Service.getAllTasks, Model.find. simpl.
    destruct (fault env); [done |]. do 4 f_equal.
    apply filter_bool_all. eapply Forall_impl; [exact Hvalid |].
    intros t Ht. apply match_any_line; [done |]. by apply valid_status_one_line.
  - unfold Spec.withStatus. induction Hvalid as [| t l (_ & _ & Ht) Hl IH]; [done |].
    simpl. rewrite IH. unfold Spec.statuses in Ht.
    repeat (apply elem_of_cons in Ht as [-> | Ht]; [done |]).
    by apply elem_of_nil in Ht.
Qed.

Lemma status_dot_star_lists_everything_witness :
  Service.getAllTasks Sample.env Sample.store (Some ".*")
  = Service.getAllTasks Sample.env Sample.store None.
Proof.
  exact (proj1 (status_dot_star_lists_everything Sample.env Sample.store
                  valid_sample_store)).
Defined.
